(** * webrtc.ts: the SDP codec filter and the start/stop glue

    A shallow embedding of [src/webrtc.ts].

    - JavaScript strings are modelled as [string]: sequences of code units
      below 256, which covers every character the patterns of the source
      mention (SDP is an ASCII format).
    - [+match[i]] turns a run of decimal digits into a JavaScript Number.
      Payload types are modelled as [N]; the two agree for every digit run
      whose value is below 2^53 (an RTP payload type is below 128), and
      [Array.prototype.join] prints such a Number in plain decimal.
    - The four patterns of [sdpFilterCodec] are embedded as matchers that
      return the capture groups the source reads; [search] is the leftmost
      scan of [String.prototype.match] for a pattern without flags. *)

From Stdlib Require Import String Ascii List NArith Bool Arith Lia.
From Stdlib Require Import DecimalString.
Import ListNotations.
Open Scope list_scope.
Open Scope string_scope.

(** ** Characters and strings *)

Module Js.

(** [[0-9]] and [\d] (no unicode flag). *)
Definition is_digit (c : ascii) : bool :=
  ((48 <=? nat_of_ascii c) && (nat_of_ascii c <=? 57))%nat.

(** [\s] restricted to code units below 256: TAB, LF, VT, FF, CR, SP, NBSP. *)
Definition is_space (c : ascii) : bool :=
  let n := nat_of_ascii c in
  (((9 <=? n) && (n <=? 13)) || (n =? 32) || (n =? 160))%nat.

(** The characters [.] refuses (below 256: LF and CR). *)
Definition is_line_terminator (c : ascii) : bool :=
  let n := nat_of_ascii c in ((n =? 10) || (n =? 13))%nat.

Definition LF : ascii := ascii_of_nat 10.
Definition CR : ascii := ascii_of_nat 13.
Definition SP : ascii := " "%char.

(** [line.startsWith(p)]. *)
Definition startsWith (line p : string) : bool := prefix p line.

(** [s.slice(n)] for [0 <= n]. *)
Fixpoint drop (n : nat) (s : string) : string :=
  match n, s with
  | O, _ => s
  | S n', String _ r => drop n' r
  | S _, EmptyString => EmptyString
  end.

(** If [s] starts with [p], what follows [p]. *)
Definition strip (p s : string) : option string :=
  if startsWith s p then Some (drop (String.length p) s) else None.

(** The longest run of digits at the head of [s], and what follows it. *)
Fixpoint digits_of (s : string) : string * string :=
  match s with
  | String c r =>
      if is_digit c
      then let '(d, t) := digits_of r in (String c d, t)
      else (EmptyString, s)
  | EmptyString => (EmptyString, EmptyString)
  end.

Definition digit_val (c : ascii) : N := N.of_nat (nat_of_ascii c - 48).

Fixpoint to_number_acc (acc : N) (s : string) : N :=
  match s with
  | EmptyString => acc
  | String c r => to_number_acc (10 * acc + digit_val c)%N r
  end.

(** Unary [+] on a run of digits. *)
Definition to_number (digits : string) : N := to_number_acc 0%N digits.

(** [String(n)] for a Number holding a natural number. *)
Definition number_to_string (n : N) : string :=
  NilZero.string_of_uint (N.to_uint n).

(** [arr.includes(n)] on an array of Numbers. *)
Definition includes (n : N) (arr : list N) : bool := existsb (N.eqb n) arr.

(** [arr.join(' ')]. *)
Definition join (arr : list N) : string :=
  String.concat " " (map number_to_string arr).

(** [s.split('\n')]: always at least one piece. *)
Fixpoint split_lines (s : string) : list string :=
  match s with
  | EmptyString => [EmptyString]
  | String c r =>
      if Ascii.eqb c LF then EmptyString :: split_lines r
      else match split_lines r with
           | h :: t => String c h :: t
           | [] => [String c EmptyString]
           end
  end.

(** Leftmost scan: [at_pos] is tried at every position of [s], the end
    included; the text before the match is returned with the result. *)
Fixpoint search {A : Type} (at_pos : string -> option A) (s : string)
  : option (string * A) :=
  match at_pos s with
  | Some r => Some (EmptyString, r)
  | None =>
      match s with
      | EmptyString => None
      | String c r =>
          match search at_pos r with
          | Some (pre, x) => Some (String c pre, x)
          | None => None
          end
      end
  end.

End Js.

Import Js.

(** ** The patterns of [sdpFilterCodec] *)

Inductive Kind : Type := video | audio.

Definition kind_str (k : Kind) : string :=
  match k with video => "video" | audio => "audio" end.

(** [`m=${kind} `] *)
Definition media_prefix (k : Kind) : string := "m=" ++ kind_str k ++ " ".

(** [rtxRegex = 'a=fmtp:(\\d+) apt=(\\d+)\r$'], tried at one position.  The
    source writes [\r] inside a plain string literal, so the pattern holds a
    carriage return, followed by the end of the line.  Groups 1 and 2. *)
Definition rtxRegex_at (s : string) : option (N * N) :=
  match strip "a=fmtp:" s with
  | None => None
  | Some s1 =>
      let '(d1, s2) := digits_of s1 in
      if String.eqb d1 "" then None else
      match strip " apt=" s2 with
      | None => None
      | Some s3 =>
          let '(d2, s4) := digits_of s3 in
          if String.eqb d2 "" then None else
          if String.eqb s4 (String CR "")
          then Some (to_number d1, to_number d2) else None
      end
  end.

Definition rtxRegex_match (line : string) : option (N * N) :=
  option_map snd (search rtxRegex_at line).

(** [codecRegex = 'a=rtpmap:([0-9]+) ' + escapeRegExp(codec)], tried at one
    position; [escapeRegExp] makes the codec name match literally.
    Group 1. *)
Definition codecRegex_at (codec s : string) : option N :=
  match strip "a=rtpmap:" s with
  | None => None
  | Some s1 =>
      let '(d, s2) := digits_of s1 in
      if String.eqb d "" then None else
      if startsWith s2 (" " ++ codec) then Some (to_number d) else None
  end.

Definition codecRegex_match (codec line : string) : option N :=
  option_map snd (search (codecRegex_at codec) line).

(** [skipRegex = 'a=(fmtp|rtcp-fb|rtpmap):([0-9]+)'], tried at one
    position.  Group 2. *)
Definition skipRegex_at (s : string) : option N :=
  match strip "a=" s with
  | None => None
  | Some s1 =>
      let after (name : string) :=
        match strip name s1 with
        | None => None
        | Some s2 =>
            match strip ":" s2 with
            | None => None
            | Some s3 =>
                let '(d, _) := digits_of s3 in
                if String.eqb d "" then None else Some (to_number d)
            end
        end in
      match after "fmtp" with
      | Some n => Some n
      | None =>
          match after "rtcp-fb" with
          | Some n => Some n
          | None => after "rtpmap"
          end
      end
  end.

Definition skipRegex_match (line : string) : option N :=
  option_map snd (search skipRegex_at line).

Definition all_space (s : string) : bool :=
  forallb is_space (list_ascii_of_string s).

(** [( ([0-9]+))*\s*$]: does [s], up to its end, consist of groups made of a
    space and digits, followed by white space only?  [fuel] bounds the number
    of groups. *)
Fixpoint payload_tail_fuel (fuel : nat) (s : string) : bool :=
  all_space s ||
  match fuel, s with
  | S f, String c r =>
      if Ascii.eqb c SP then
        let '(d, t) := digits_of r in
        negb (String.eqb d "") && payload_tail_fuel f t
      else false
  | _, _ => false
  end.

Definition payload_tail (s : string) : bool :=
  payload_tail_fuel (String.length s) s.

(** [.*?] followed by the payload tail: the shortest run of characters other
    than line terminators after which the rest is a payload tail. *)
Fixpoint lazy_prefix (s : string) : option string :=
  if payload_tail s then Some EmptyString
  else match s with
       | EmptyString => None
       | String c r =>
           if is_line_terminator c then None
           else option_map (String c) (lazy_prefix r)
       end.

(** [videoRegex = '(m=' + kind + ' .*?)( ([0-9]+))*\\s*$'], tried at one
    position.  Group 1; the match runs to the end of the line. *)
Definition videoRegex_at (k : Kind) (s : string) : option string :=
  match strip (media_prefix k) s with
  | None => None
  | Some s1 => option_map (append (media_prefix k)) (lazy_prefix s1)
  end.

(** [line.match(videoRegex)]: the text before the match and group 1. *)
Definition videoRegex_match (k : Kind) (line : string)
  : option (string * string) :=
  search (videoRegex_at k) line.

(** ** [sdpFilterCodec] *)

(** The flag both reducers keep in the variable [isKind]. *)
Definition next_isKind (k : Kind) (isKind : bool) (line : string) : bool :=
  startsWith line (media_prefix k) || (negb (startsWith line "m=") && isKind).

(** The callback of the first [reduce].  [isKind] is assigned and not read
    afterwards. *)
Definition collect_step (k : Kind) (codec : string)
  (st : bool * list N) (line : string) : bool * list N :=
  let '(isKind, old) := st in
  let isKind := next_isKind k isKind line in
  let matchCodex := codecRegex_match codec line in
  let matchRegex := rtxRegex_match line in
  let old := match matchCodex with
             | Some pt => (old ++ [pt])%list
             | None => old
             end in
  let old := match matchRegex with
             | Some (pt, apt) =>
                 if includes apt old then (old ++ [pt])%list else old
             | None => old
             end in
  (isKind, old).

Definition collect_allowed (k : Kind) (codec : string) (lines : list string)
  : list N :=
  snd (fold_left (collect_step k codec) lines (false, [])).

(** [line.replace(videoRegex, '$1' + allowed.join(' '))].  The replacement
    text starts with [$1] followed by the joined list; a two-digit group
    number read from [$1] and a following digit exceeds the three groups of
    the pattern, so it is read as group 1 followed by that digit. *)
Definition replace_video (k : Kind) (allowed : list N) (line : string)
  : string :=
  match videoRegex_match k line with
  | Some (before, g1) => before ++ g1 ++ join allowed
  | None => line
  end.

(** The callback of the second [reduce]. *)
Definition rewrite_step (k : Kind) (allowed : list N)
  (st : bool * string) (line : string) : bool * string :=
  let '(isKind, old) := st in
  let isKind := next_isKind k isKind line in
  let isIncluded :=
    match skipRegex_match line with
    | Some pt => includes pt allowed
    | None => false (* allowed.includes(NaN): no entry of allowed is NaN *)
    end in
  let isVideo := videoRegex_match k line in
  (isKind,
   if isKind then
     if isIncluded then
       match isVideo with
       | Some _ => old ++ replace_video k allowed line ++ " " ++ String LF ""
       | None => old ++ line ++ " " ++ String LF ""
       end
     else old
   else old ++ line ++ " " ++ String LF "").

Definition sdpFilterCodec (k : Kind) (codec : string)
  (realSdp : option string) : string :=
  let lines := match realSdp with
               | Some s => split_lines s
               | None => []
               end in
  let allowed := collect_allowed k codec lines in
  snd (fold_left (rewrite_step k allowed) lines (false, EmptyString)).

(** The codec name every call of the source passes. *)
Definition H264 : string := "H264/90000".

(** ** The two reducers, line by line

    The same computations as [collect_step] and [rewrite_step], split so that
    statements can speak about one line or about a part of the document. *)

(** The first reducer started from an arbitrary accumulator. *)
Definition collect_from (k : Kind) (codec : string) (st : bool * list N)
  (lines : list string) : bool * list N :=
  fold_left (collect_step k codec) lines st.

(** What the codec rule, then the retransmission rule, add for one line. *)
Definition codec_part (codec line : string) : list N :=
  match codecRegex_match codec line with
  | Some pt => [pt]
  | None => []
  end.

Definition rtx_part (cur : list N) (line : string) : list N :=
  match rtxRegex_match line with
  | Some (pt, apt) => if includes apt cur then [pt] else []
  | None => []
  end.

Definition collect_line (codec : string) (old : list N) (line : string)
  : list N :=
  let cur := (old ++ codec_part codec line)%list in
  (cur ++ rtx_part cur line)%list.

(** The value of [isKind] after the reducer has seen [lines]. *)
Definition isKind_after (k : Kind) (lines : list string) : bool :=
  fold_left (next_isKind k) lines false.

(** The second reducer run on a part of the document, from a given flag. *)
Definition rewrite_lines (k : Kind) (allowed : list N) (isKind : bool)
  (lines : list string) : string :=
  snd (fold_left (rewrite_step k allowed) lines (isKind, EmptyString)).

Definition isIncluded (allowed : list N) (line : string) : bool :=
  match skipRegex_match line with
  | Some pt => includes pt allowed
  | None => false
  end.

(** The text the second reducer emits for a line, before the space and the
    line feed it appends; [None] when the line is dropped.  [isKind] is the
    flag already updated for this line. *)
Definition keep_line (k : Kind) (allowed : list N) (isKind : bool)
  (line : string) : option string :=
  if isKind then
    if isIncluded allowed line then Some (replace_video k allowed line)
    else None
  else Some line.

Fixpoint kept (k : Kind) (allowed : list N) (isKind : bool)
  (lines : list string) : list string :=
  match lines with
  | [] => []
  | l :: ls =>
      let b := next_isKind k isKind l in
      match keep_line k allowed b l with
      | Some c => c :: kept k allowed b ls
      | None => kept k allowed b ls
      end
  end.

Definition nl : string := String LF "".

(** Every emitted text is followed by a space and a line feed. *)
Fixpoint render (cs : list string) : string :=
  match cs with
  | [] => EmptyString
  | c :: cs' => c ++ " " ++ nl ++ render cs'
  end.

Fixpoint has_lf (s : string) : bool :=
  match s with
  | EmptyString => false
  | String c r => Ascii.eqb c LF || has_lf r
  end.

Fixpoint last_char (s : string) : option ascii :=
  match s with
  | EmptyString => None
  | String c EmptyString => Some c
  | String _ r => last_char r
  end.

(** Is the line terminated by a carriage return (a CRLF document split at
    its line feeds)? *)
Definition ends_with_cr (line : string) : bool :=
  match last_char line with
  | Some c => Ascii.eqb c CR
  | None => false
  end.

(** Does the string consist of spaces only? *)
Fixpoint blank (s : string) : bool :=
  match s with
  | EmptyString => true
  | String c r => Ascii.eqb c SP && blank r
  end.

Definition crlf : string := String CR (String LF "").

(** ** The exported function: start and stop

    The body of the exported function is modelled over a world that holds
    the variable [pc] and the trace of calls made to the browser.  A call of
    an [async] function is recorded where it is made; its continuation after
    the first [await] is not part of the model. *)

Module Lifecycle.

Definition Element := nat.

Record Transceiver : Type := {
  transceiver_id : nat;
  has_stop : bool            (* [transceiver.stop] is defined *)
}.

Record Sender : Type := {
  track : option nat         (* [sender.track], [None] when null *)
}.

Record RTCPeerConnection : Type := {
  connection_id : nat;
  getTransceivers : option (list Transceiver); (* [None]: method absent *)
  getSenders : list (option Sender)
}.

Record RTCOptions : Type := {
  destination : Element;
  start : option Element;
  stop : option Element;
  source : option Element;
  debug : option bool;
  audio : option bool;
  video : option bool
}.

Inductive Handler : Type :=
| ToggleRecording   (* [() => pc ? stopRecording() : startRecording()] *)
| StopRecording.    (* [() => stopRecording()] *)

Inductive Call : Type :=
| AddEventListener (target : Element) (event : string) (h : Handler)
| StartCamera (displayResult : Element) (displaySource : option Element)
              (debug audio video : bool)
| SetSrcObjectNull (target : Element)
| TransceiverStop (id : nat)
| TrackStop (id : nat)
| SetTimeoutClose (connection : nat) (ms : nat).

Record World : Type := {
  pc : option RTCPeerConnection;
  calls : list Call
}.

(** The values the last two statements of the function distinguish. *)
Inductive JsValue : Type := Undefined | Null | PromiseValue.

Definition M (A : Type) : Type := World -> A * World.

Definition ret {A : Type} (x : A) : M A := fun w => (x, w).

Definition bind {A B : Type} (m : M A) (f : A -> M B) : M B :=
  fun w => let '(x, w') := m w in f x w'.

Notation "x <- m ;; k" := (bind m (fun x => k))
  (at level 61, m at next level, right associativity).
Notation "m ;; k" := (bind m (fun _ => k))
  (at level 61, right associativity).

Definition call (c : Call) : M unit :=
  fun w => (tt, {| pc := pc w; calls := (calls w ++ [c])%list |}).

Definition get_pc : M (option RTCPeerConnection) := fun w => (pc w, w).

Definition set_pc (v : option RTCPeerConnection) : M unit :=
  fun w => (tt, {| pc := v; calls := calls w |}).

Fixpoint forEach {A : Type} (f : A -> M unit) (xs : list A) : M unit :=
  match xs with
  | [] => ret tt
  | x :: xs' => f x ;; forEach f xs'
  end.

Definition when_some {A : Type} (o : option A) (f : A -> M unit) : M unit :=
  match o with
  | Some x => f x
  | None => ret tt
  end.

(** [target.addEventListener(event, h)] returns [undefined]. *)
Definition addEventListener (target : Element) (event : string)
  (h : Handler) : M JsValue :=
  call (AddEventListener target event h) ;; ret Undefined.

(** [o?.m(...)]: [undefined] without a call when [o] is missing. *)
Definition optional_call {A : Type} (o : option A) (m : A -> M JsValue)
  : M JsValue :=
  match o with
  | Some x => m x
  | None => ret Undefined
  end.

(** [lhs ?? rhs]: [rhs] is evaluated when [lhs] is [null] or [undefined]. *)
Definition nullish (lhs : JsValue) (rhs : M JsValue) : M JsValue :=
  match lhs with
  | Undefined | Null => rhs
  | _ => ret lhs
  end.

Definition with_default (d : bool) (o : option bool) : bool :=
  match o with
  | Some b => b
  | None => d
  end.

Section Setup.

Variable options : RTCOptions.

Let source_ := source options.
Let destination_ := destination options.
Let debug_ := with_default false (debug options).
Let audio_ := with_default false (audio options).
Let video_ := with_default true (video options).

(** [startRecording]: the call of [startCamera]; the promise it returns is
    awaited, so [pc] is not assigned during the call. *)
Definition startRecording : M JsValue :=
  call (StartCamera destination_ source_ debug_ audio_ video_) ;;
  ret PromiseValue.

Definition stopTransceiver (t : Transceiver) : M unit :=
  if has_stop t then call (TransceiverStop (transceiver_id t)) else ret tt.

Definition stopCamera (c : RTCPeerConnection)
  (displaySource : option Element) : M RTCPeerConnection :=
  when_some displaySource (fun el => call (SetSrcObjectNull el)) ;;
  when_some (getTransceivers c) (forEach stopTransceiver) ;;
  forEach (fun sender : option Sender =>
             when_some sender (fun s =>
             when_some (track s) (fun t => call (TrackStop t))))
          (getSenders c) ;;
  call (SetTimeoutClose (connection_id c) 500) ;;
  ret c.

(** [pc = pc ? stopCamera(pc, source) : pc; pc = null] *)
Definition stopRecording : M JsValue :=
  cur <- get_pc ;;
  v <- match cur with
       | Some c => r <- stopCamera c source_ ;; ret (Some r)
       | None => ret cur
       end ;;
  set_pc v ;;
  set_pc None ;;
  ret Undefined.

(** What a registered handler does when its click arrives. *)
Definition run_handler (h : Handler) : M JsValue :=
  match h with
  | ToggleRecording =>
      cur <- get_pc ;;
      match cur with
      | Some _ => stopRecording
      | None => startRecording
      end
  | StopRecording => stopRecording
  end.

(** The last two statements of the exported function:
    [start?.addEventListener('click', ...) ?? startRecording()] and
    [stop?.addEventListener('click', ...)]. *)
Definition setup : M unit :=
  v <- optional_call (start options)
         (fun el => addEventListener el "click" ToggleRecording) ;;
  nullish v startRecording ;;
  optional_call (stop options)
    (fun el => addEventListener el "click" StopRecording) ;;
  ret tt.

End Setup.

(** The world in which the exported function starts: [let pc = null]. *)
Definition initial : World := {| pc := None; calls := [] |}.

End Lifecycle.

(** ** Documents used in the statements below *)

(** The codec is named by an [a=rtpmap] line of the audio section. *)
Definition audio_h264_sdp : string :=
  "m=audio 9 UDP/TLS/RTP/SAVPF 111" ++ nl ++
  "a=rtpmap:111 H264/90000" ++ nl ++
  "m=video 9 UDP/TLS/RTP/SAVPF 96" ++ nl ++
  "a=rtpmap:96 VP8/90000".

(** The same [a=rtpmap] line twice. *)
Definition duplicate_rtpmap_sdp : string :=
  "m=video 9 UDP/TLS/RTP/SAVPF 96" ++ nl ++
  "a=rtpmap:96 H264/90000" ++ nl ++
  "a=rtpmap:96 H264/90000".

(** A video section with a retransmission payload, lines ended by a line
    feed alone. *)
Definition lf_only_sdp : string :=
  "m=video 9 UDP/TLS/RTP/SAVPF 96 97" ++ nl ++
  "a=rtpmap:96 H264/90000" ++ nl ++
  "a=rtpmap:97 rtx/90000" ++ nl ++
  "a=fmtp:97 apt=96" ++ nl.

(** An audio section, then a video section offering H264 (96), its
    retransmission payload (97) and VP8 (98); CRLF line ends. *)
Definition h264_rtx_sdp : string :=
  "v=0" ++ crlf ++
  "m=audio 9 UDP/TLS/RTP/SAVPF 111" ++ crlf ++
  "a=rtpmap:111 opus/48000/2" ++ crlf ++
  "m=video 9 UDP/TLS/RTP/SAVPF 96 97 98" ++ crlf ++
  "a=mid:1" ++ crlf ++
  "a=rtpmap:96 H264/90000" ++ crlf ++
  "a=rtpmap:97 rtx/90000" ++ crlf ++
  "a=fmtp:97 apt=96" ++ crlf ++
  "a=rtpmap:98 VP8/90000" ++ crlf.

(** A video section that does not offer the codec. *)
Definition vp8_only_sdp : string :=
  "v=0" ++ crlf ++
  "m=video 9 UDP/TLS/RTP/SAVPF 98" ++ crlf ++
  "a=rtpmap:98 VP8/90000" ++ crlf.

(** ** [escapeRegExp] *)

Definition BACKSLASH : ascii := ascii_of_nat 92.

(** The class [[.*+?^${}()|[\]\\]] of [escapeRegExp]: the syntax characters
    of a pattern. *)
Definition is_regexp_special (c : ascii) : bool :=
  Ascii.eqb c BACKSLASH
  || existsb (Ascii.eqb c) (list_ascii_of_string ".*+?^${}()|[]").

(** [string.replace(/[.*+?^${}()|[\]\\]/g, '\\$&')]: every character of the
    class is replaced by a backslash followed by itself. *)
Fixpoint escapeRegExp (s : string) : string :=
  match s with
  | EmptyString => EmptyString
  | String c r =>
      if is_regexp_special c
      then String BACKSLASH (String c (escapeRegExp r))
      else String c (escapeRegExp r)
  end.

(** How [new RegExp] reads a pattern made of pattern characters and escaped
    syntax characters: the text the pattern matches.  [None] when a syntax
    character stands unescaped or a backslash is followed by something
    else. *)
Fixpoint literal_of_pattern (p : string) : option string :=
  match p with
  | EmptyString => Some EmptyString
  | String c r =>
      if Ascii.eqb c BACKSLASH then
        match r with
        | String d r' =>
            if is_regexp_special d
            then option_map (String d) (literal_of_pattern r')
            else None
        | EmptyString => None
        end
      else if is_regexp_special c then None
      else option_map (String c) (literal_of_pattern r)
  end.

Definition no_special (s : string) : bool :=
  forallb (fun c => negb (is_regexp_special c)) (list_ascii_of_string s).

(** A run of one or more digits, what [[0-9]+] and [\d+] match. *)
Definition all_digits (s : string) : bool :=
  negb (String.eqb s "") && forallb is_digit (list_ascii_of_string s).

(** Does the string start with a digit? *)
Definition head_digit (s : string) : bool :=
  match s with
  | String c _ => is_digit c
  | EmptyString => false
  end.

(** The lines at which [isKind] is off, in order. *)
Fixpoint outside_lines (k : Kind) (isKind : bool) (lines : list string)
  : list string :=
  match lines with
  | [] => []
  | l :: ls =>
      let b := next_isKind k isKind l in
      if b then outside_lines k b ls else l :: outside_lines k b ls
  end.

(** ** Waiting for the ICE candidates in [negotiate]

    The promise [negotiate] awaits after [setLocalDescription]: its executor
    and its listener [checkState], over the state of the listener
    registration and the number of calls of [resolve]. *)

Module IceWait.

Inductive RTCIceGatheringState : Type := new | gathering | complete.

Record Wait : Type := {
  listening : bool;   (* [checkState] is registered for the state changes *)
  resolved : nat      (* how often [resolve] has been called *)
}.

Definition is_complete (s : RTCIceGatheringState) : bool :=
  match s with
  | complete => true
  | _ => false
  end.

(** [if (pc.iceGatheringState === 'complete') resolve()
     else pc.addEventListener('icegatheringstatechange', checkState)] *)
Definition executor (iceGatheringState : RTCIceGatheringState) : Wait :=
  if is_complete iceGatheringState
  then {| listening := false; resolved := 1 |}
  else {| listening := true; resolved := 0 |}.

(** [checkState], run with the connection in state [iceGatheringState]. *)
Definition checkState (iceGatheringState : RTCIceGatheringState) (w : Wait)
  : Wait :=
  if is_complete iceGatheringState
  then {| listening := false; resolved := S (resolved w) |}
  else w.

(** An [icegatheringstatechange] event: the listener runs if registered. *)
Definition dispatch (w : Wait) (iceGatheringState : RTCIceGatheringState)
  : Wait :=
  if listening w then checkState iceGatheringState w else w.

(** The promise created in state [s0], after the events [events]. *)
Definition wait (s0 : RTCIceGatheringState)
  (events : list RTCIceGatheringState) : Wait :=
  fold_left dispatch events (executor s0).

(** The promise is either pending with its listener registered, or resolved
    once with no listener. *)
Definition settled_or_listening (w : Wait) : Prop :=
  (listening w = true /\ resolved w = 0)
  \/ (listening w = false /\ resolved w = 1).

End IceWait.

(** [sender?.track?.stop()]: the call made for one sender. *)
Definition sender_calls (sender : option Lifecycle.Sender)
  : list Lifecycle.Call :=
  match sender with
  | Some {| Lifecycle.track := Some t |} => [Lifecycle.TrackStop t]
  | _ => []
  end.

(** No character of the string is one that [.] refuses. *)
Definition no_terminator (s : string) : bool :=
  forallb (fun c => negb (is_line_terminator c)) (list_ascii_of_string s).

(** The string is empty or ends with a character that is neither a digit
    nor white space. *)
Definition solid_end (s : string) : bool :=
  match last_char s with
  | Some c => negb (is_digit c || is_space c)
  | None => true
  end.

(** * Properties *)

(** ** Strings *)

Lemma append_nil_r (s : string) : s ++ "" = s.
Proof. induction s as [|c s IH]; simpl; [reflexivity | now rewrite IH]. Qed.

Lemma append_assoc (a b c : string) : (a ++ b) ++ c = a ++ (b ++ c).
Proof. induction a as [|x a IH]; simpl; [reflexivity | now rewrite IH]. Qed.

Lemma length_append (a b : string) :
  String.length (a ++ b) = String.length a + String.length b.
Proof. induction a as [|x a IH]; simpl; [reflexivity | now rewrite IH]. Qed.

Lemma append_inv_tail (a b c : string) : a ++ c = b ++ c -> a = b.
Proof.
  revert b; induction a as [|x a IH]; intros [|y b] H; simpl in H.
  - reflexivity.
  - apply (f_equal String.length) in H; simpl in H.
    rewrite length_append in H; lia.
  - apply (f_equal String.length) in H; simpl in H.
    rewrite length_append in H; lia.
  - injection H as -> H. f_equal. now apply IH.
Qed.

Lemma append_inv_head (a b c : string) : a ++ b = a ++ c -> b = c.
Proof.
  induction a as [|x a IH]; simpl; intros H; [exact H|].
  injection H as H. now apply IH.
Qed.

Lemma startsWith_split (s p : string) :
  startsWith s p = true -> s = p ++ drop (String.length p) s.
Proof.
  unfold startsWith. revert s; induction p as [|x p IH]; intros s H.
  - reflexivity.
  - destruct s as [|y s]; simpl in H; [discriminate|].
    destruct (ascii_dec x y) as [->|]; [|discriminate].
    simpl. f_equal. now apply IH.
Qed.

Lemma startsWith_append (p t : string) : startsWith (p ++ t) p = true.
Proof.
  unfold startsWith. induction p as [|x p IH]; simpl.
  - now destruct t.
  - destruct (ascii_dec x x); [exact IH | congruence].
Qed.

Lemma strip_split (p s t : string) : strip p s = Some t -> s = p ++ t.
Proof.
  unfold strip. destruct (startsWith s p) eqn:E; [|discriminate].
  intros [= <-]. now apply startsWith_split.
Qed.

Lemma digits_of_split (s d t : string) : digits_of s = (d, t) -> s = d ++ t.
Proof.
  revert d t; induction s as [|c s IH]; simpl; intros d t H.
  - now injection H as <- <-.
  - destruct (is_digit c).
    + destruct (digits_of s) as [d' t']. injection H as <- <-.
      simpl. f_equal. now apply IH.
    + now injection H as <- <-.
Qed.

Lemma search_split {A : Type} (f : string -> option A) (s pre : string)
  (r : A) :
  search f s = Some (pre, r) ->
  exists m, s = pre ++ m /\ f m = Some r.
Proof.
  revert pre; induction s as [|c s IH]; simpl; intros pre H.
  - destruct (f "") eqn:E; [|discriminate].
    injection H as <- <-. now exists "".
  - destruct (f (String c s)) eqn:E.
    + injection H as <- <-. now exists (String c s).
    + destruct (search f s) as [[p x]|] eqn:Es; [|discriminate].
      injection H as <- <-.
      destruct (IH p eq_refl) as (m & -> & Hm). now exists m.
Qed.

Lemma last_char_append (a : string) (c : ascii) :
  last_char (a ++ String c "") = Some c.
Proof.
  induction a as [|x a IH]; simpl; [reflexivity|].
  destruct (a ++ String c "") eqn:E; [|exact IH].
  destruct a; discriminate.
Qed.

Lemma last_char_prepend (a b : string) :
  b <> "" -> last_char (a ++ b) = last_char b.
Proof.
  intros Hb. induction a as [|x a IH]; simpl; [reflexivity|].
  destruct (a ++ b) eqn:E; [|exact IH].
  destruct a; simpl in E; [congruence | discriminate].
Qed.

(** ** The retransmission pattern needs a carriage return *)

Lemma rtxRegex_at_cr (m : string) (r : N * N) :
  rtxRegex_at m = Some r -> ends_with_cr m = true.
Proof.
  unfold rtxRegex_at.
  destruct (strip "a=fmtp:" m) as [s1|] eqn:E1; [|discriminate].
  destruct (digits_of s1) as [d1 s2] eqn:E2.
  destruct (String.eqb d1 ""); [discriminate|].
  destruct (strip " apt=" s2) as [s3|] eqn:E3; [|discriminate].
  destruct (digits_of s3) as [d2 s4] eqn:E4.
  destruct (String.eqb d2 ""); [discriminate|].
  destruct (String.eqb_spec s4 (String CR "")) as [->|]; [|discriminate].
  intros _.
  apply strip_split in E1, E3. apply digits_of_split in E2, E4. subst.
  unfold ends_with_cr.
  rewrite <- !append_assoc, last_char_append. reflexivity.
Qed.

Lemma rtxRegex_match_cr (line : string) (r : N * N) :
  rtxRegex_match line = Some r -> ends_with_cr line = true.
Proof.
  unfold rtxRegex_match.
  destruct (search rtxRegex_at line) as [[pre x]|] eqn:E; [|discriminate].
  intros _. apply search_split in E as (m & -> & Hm).
  pose proof (rtxRegex_at_cr _ _ Hm) as H.
  unfold ends_with_cr in *.
  destruct m as [|c m]; [discriminate|].
  now rewrite last_char_prepend.
Qed.

Lemma lazy_prefix_split (s x : string) :
  lazy_prefix s = Some x ->
  exists tail, s = x ++ tail /\ payload_tail tail = true.
Proof.
  revert x; induction s as [|c s IH]; intros x H; simpl in H.
  - destruct (payload_tail "") eqn:E; [|discriminate].
    injection H as <-. now exists "".
  - destruct (payload_tail (String c s)) eqn:E.
    + injection H as <-. now exists (String c s).
    + destruct (is_line_terminator c); [discriminate|].
      destruct (lazy_prefix s) as [y|]; [|discriminate].
      injection H as <-. destruct (IH y eq_refl) as (tail & -> & Ht).
      now exists tail.
Qed.

Lemma videoRegex_match_split (k : Kind) (line before g1 : string) :
  videoRegex_match k line = Some (before, g1) ->
  exists tail, line = before ++ g1 ++ tail /\ payload_tail tail = true.
Proof.
  intros E. apply search_split in E as (m & -> & Hm).
  unfold videoRegex_at in Hm.
  destruct (strip (media_prefix k) m) as [s1|] eqn:E1; [|discriminate].
  destruct (lazy_prefix s1) as [x|] eqn:E2; [|discriminate].
  injection Hm as <-. apply strip_split in E1 as ->.
  apply lazy_prefix_split in E2 as (tail & -> & Ht).
  exists tail. split; [|exact Ht].
  unfold media_prefix. simpl. now rewrite !append_assoc.
Qed.

(** ** The first reducer *)

Lemma collect_step_snd (k : Kind) (codec : string) (b : bool) (old : list N)
  (line : string) :
  collect_step k codec (b, old) line
  = (next_isKind k b line, collect_line codec old line).
Proof.
  unfold collect_step, collect_line, codec_part, rtx_part.
  destruct (codecRegex_match codec line);
    destruct (rtxRegex_match line) as [[pt apt]|]; simpl;
    rewrite ?app_nil_r; try reflexivity;
    now destruct (includes apt _); rewrite ?app_nil_r.
Qed.

Lemma collect_from_snd (k : Kind) (codec : string) (lines : list string)
  (b : bool) (old : list N) :
  snd (collect_from k codec (b, old) lines)
  = fold_left (collect_line codec) lines old.
Proof.
  unfold collect_from. revert b old.
  induction lines as [|l ls IH]; intros b old; cbn [fold_left];
    [reflexivity|].
  rewrite collect_step_snd. apply IH.
Qed.

Lemma collect_allowed_fold (k : Kind) (codec : string)
  (lines : list string) :
  collect_allowed k codec lines = fold_left (collect_line codec) lines [].
Proof. apply (collect_from_snd k codec lines false []). Qed.

Lemma collect_allowed_app (k : Kind) (codec : string)
  (pre post : list string) :
  collect_allowed k codec (pre ++ post)
  = fold_left (collect_line codec) post (collect_allowed k codec pre).
Proof. now rewrite !collect_allowed_fold, fold_left_app. Qed.

Lemma fold_collect_extends (codec : string) (lines : list string)
  (old : list N) :
  exists added, fold_left (collect_line codec) lines old = (old ++ added)%list.
Proof.
  revert old; induction lines as [|l ls IH]; intros old; simpl.
  - exists []. now rewrite app_nil_r.
  - destruct (IH (collect_line codec old l)) as [a Ha].
    rewrite Ha. unfold collect_line.
    eexists. rewrite <- !app_assoc. reflexivity.
Qed.

Lemma includes_In (n : N) (arr : list N) :
  includes n arr = true <-> In n arr.
Proof.
  unfold includes. rewrite existsb_exists. split.
  - intros (x & Hx & E). apply N.eqb_eq in E. now subst.
  - intros H. exists n. split; [exact H | apply N.eqb_refl].
Qed.

Lemma fold_collect_origin (codec : string) (x : N) (lines : list string)
  (old : list N) :
  In x (fold_left (collect_line codec) lines old) ->
  In x old \/
  exists l, In l lines /\
            (codecRegex_match codec l = Some x \/
             exists apt, rtxRegex_match l = Some (x, apt)).
Proof.
  revert old; induction lines as [|l ls IH]; intros old H; simpl in H.
  - now left.
  - destruct (IH _ H) as [Hin | (l' & Hl' & Hm)].
    + unfold collect_line, codec_part, rtx_part in Hin.
      rewrite !in_app_iff in Hin. destruct Hin as [[Hin | Hin] | Hin].
      * now left.
      * right. exists l. split; [now left|]. left.
        destruct (codecRegex_match codec l); simpl in Hin; [|contradiction].
        destruct Hin as [->|[]]. reflexivity.
      * right. exists l. split; [now left|]. right.
        destruct (rtxRegex_match l) as [[pt apt]|]; [|contradiction].
        destruct (includes apt _); simpl in Hin; [|contradiction].
        destruct Hin as [->|[]]. now exists apt.
    + right. exists l'. split; [now right | exact Hm].
Qed.

Lemma fold_collect_no_cr (codec : string) (lines : list string)
  (old : list N) :
  forallb (fun l => negb (ends_with_cr l)) lines = true ->
  fold_left (collect_line codec) lines old
  = (old ++ flat_map (codec_part codec) lines)%list.
Proof.
  revert old; induction lines as [|l ls IH]; intros old H; simpl in *.
  - now rewrite app_nil_r.
  - apply andb_true_iff in H as [Hl Hls]. rewrite (IH _ Hls).
    unfold collect_line, rtx_part.
    destruct (rtxRegex_match l) as [r|] eqn:E.
    + apply rtxRegex_match_cr in E. rewrite E in Hl. discriminate.
    + now rewrite app_nil_r, app_assoc.
Qed.

Lemma collect_line_codec (codec : string) (old : list N) (l : string)
  (p : N) :
  codecRegex_match codec l = Some p ->
  collect_line codec old l = (old ++ p :: rtx_part (old ++ [p]) l)%list.
Proof.
  intros H. unfold collect_line, codec_part. rewrite H.
  now rewrite <- app_assoc.
Qed.

(** ** Claims about the collection pass *)

(** C4 (the code departs from the claim).  The first reducer assigns
    [isKind] and never reads it: the list it collects is the same for both
    kinds, and an [a=rtpmap] line naming the codec in the audio section of
    [audio_h264_sdp], a line at which the flag for [video] is off,
    contributes its payload type 111. *)
Theorem collect_ignores_media_section :
  (forall codec lines,
      collect_allowed video codec lines = collect_allowed audio codec lines)
  /\ nth_error (split_lines audio_h264_sdp) 1 = Some "a=rtpmap:111 H264/90000"
  /\ isKind_after video (firstn 2 (split_lines audio_h264_sdp)) = false
  /\ collect_allowed video H264 (split_lines audio_h264_sdp) = [111%N].
Proof.
  split; [|repeat split; vm_compute; reflexivity].
  intros codec lines. now rewrite !collect_allowed_fold.
Qed.

(** A line on which the retransmission pattern reads the payload type [pt]
    and the base [apt]: [pt] is appended exactly when [apt] is in [cur], the
    list collected from the lines before, after the codec rule of the same
    line; otherwise the scan goes on from [cur], and [pt] is in the final
    list only if another line supplies it. *)
Lemma collect_at_rtx_match (k : Kind) (codec : string)
  (pre post : list string) (l : string) (pt apt : N) :
  rtxRegex_match l = Some (pt, apt) ->
  let cur := (collect_allowed k codec pre ++ codec_part codec l)%list in
  (collect_allowed k codec (pre ++ [l]) = (cur ++ [pt])%list <-> In apt cur)
  /\ (~ In apt cur -> collect_allowed k codec (pre ++ [l]) = cur)
  /\ (~ In apt cur ->
      forall b, collect_allowed k codec (pre ++ l :: post)
                = snd (collect_from k codec (b, cur) post))
  /\ (~ In apt cur -> ~ In pt cur ->
      (forall l', In l' post ->
                  codecRegex_match codec l' <> Some pt /\
                  forall a, rtxRegex_match l' <> Some (pt, a)) ->
      ~ In pt (collect_allowed k codec (pre ++ l :: post))).
Proof.
  intros Hm cur.
  assert (Hstep : collect_allowed k codec (pre ++ [l])
                  = if includes apt cur then (cur ++ [pt])%list else cur).
  { rewrite collect_allowed_app. simpl. unfold collect_line, rtx_part.
    fold cur. rewrite Hm. destruct (includes apt cur); [reflexivity|].
    apply app_nil_r. }
  assert (Hpost : ~ In apt cur ->
                  collect_allowed k codec (pre ++ l :: post)
                  = fold_left (collect_line codec) post cur).
  { intros Hn. rewrite collect_allowed_app. simpl. f_equal.
    unfold collect_line, rtx_part. fold cur. rewrite Hm.
    destruct (includes apt cur) eqn:E; [|apply app_nil_r].
    apply includes_In in E. contradiction. }
  split; [split|split; [|split]].
  - rewrite Hstep. destruct (includes apt cur) eqn:E.
    + intros _. now apply includes_In.
    + intros H. apply (f_equal (@List.length N)) in H.
      rewrite length_app in H. simpl in H. lia.
  - intros H. rewrite Hstep. apply includes_In in H. now rewrite H.
  - intros Hn. rewrite Hstep. destruct (includes apt cur) eqn:E;
      [|reflexivity]. apply includes_In in E. contradiction.
  - intros Hn b. rewrite collect_from_snd. now apply Hpost.
  - intros Hn Hpt Hall Hin. rewrite (Hpost Hn) in Hin.
    apply fold_collect_origin in Hin as [Hin | (l' & Hl' & [Hc | [a Hr]])].
    + contradiction.
    + now apply (proj1 (Hall l' Hl')).
    + now apply (proj2 (Hall l' Hl') a).
Qed.

(** C6, as stated, fails: two [a=rtpmap] lines for the same payload type
    put it into the list twice. *)
Lemma allowed_has_duplicates :
  collect_allowed video H264 (split_lines duplicate_rtpmap_sdp)
  = [96%N; 96%N]
  /\ ~ NoDup (collect_allowed video H264 (split_lines duplicate_rtpmap_sdp)).
Proof.
  split; [vm_compute; reflexivity|].
  intros H. vm_compute in H. inversion H as [|x xs Hx _]; subst.
  apply Hx. now left.
Qed.

(** C6, amended.  The list is an ordered sequence built in scan order and
    by appending only, never sorted and with no test for an entry already
    there: what is collected from a beginning of the document is a prefix
    of what is collected from the whole; each line appends its codec match,
    then its retransmission match when the base is present; and of two
    lines matching the codec pattern, the payload type of the earlier line
    stands before that of the later one, whatever the two numbers are. *)
Theorem allowed_scan_order (k : Kind) (codec : string)
  (pre mid post : list string) (l l1 l2 : string) (p1 p2 : N) :
  (exists added,
      collect_allowed k codec (pre ++ post)
      = (collect_allowed k codec pre ++ added)%list)
  /\ (let cur := (collect_allowed k codec pre ++ codec_part codec l)%list in
      collect_allowed k codec (pre ++ [l]) = (cur ++ rtx_part cur l)%list)
  /\ (codecRegex_match codec l1 = Some p1 ->
      codecRegex_match codec l2 = Some p2 ->
      exists a b c,
        collect_allowed k codec (pre ++ l1 :: mid ++ l2 :: post)
        = (a ++ p1 :: b ++ p2 :: c)%list).
Proof.
  split; [|split].
  - rewrite collect_allowed_app. apply fold_collect_extends.
  - rewrite collect_allowed_app. reflexivity.
  - intros H1 H2. rewrite collect_allowed_app. cbn [fold_left].
    rewrite fold_left_app. cbn [fold_left].
    rewrite (collect_line_codec codec _ l1 p1 H1).
    destruct (fold_collect_extends codec mid
                (collect_allowed k codec pre
                 ++ p1 :: rtx_part (collect_allowed k codec pre ++ [p1]) l1))
      as [a1 ->].
    rewrite (collect_line_codec codec _ l2 p2 H2).
    match goal with
    | |- context [fold_left _ post ?Y] =>
        destruct (fold_collect_extends codec post Y) as [a2 ->]
    end.
    exists (collect_allowed k codec pre),
      (rtx_part (collect_allowed k codec pre ++ [p1]) l1 ++ a1)%list.
    eexists. rewrite <- !app_assoc. cbn [app]. reflexivity.
Qed.

(** C6 amended, a run: 100 is matched before 96 and stays before it. *)
Lemma allowed_scan_order_witness :
  codecRegex_match H264 "a=rtpmap:100 H264/90000" = Some 100%N
  /\ codecRegex_match H264 "a=rtpmap:96 H264/90000" = Some 96%N
  /\ exists a b c,
       collect_allowed video H264
         (["m=video 9 UDP/TLS/RTP/SAVPF 100 96"]
          ++ "a=rtpmap:100 H264/90000"
          :: ["a=rtcp-fb:100 nack"]
          ++ "a=rtpmap:96 H264/90000" :: [])
       = (a ++ 100%N :: b ++ 96%N :: c)%list.
Proof.
  split; [reflexivity|]. split; [reflexivity|].
  exact (proj2 (proj2
           (allowed_scan_order video H264
              ["m=video 9 UDP/TLS/RTP/SAVPF 100 96"]
              ["a=rtcp-fb:100 nack"] [] ""
              "a=rtpmap:100 H264/90000" "a=rtpmap:96 H264/90000"
              100%N 96%N)) eq_refl eq_refl).
Defined.

(** C9.  In a document none of whose lines ends with a carriage return, no
    line matches the retransmission pattern, and the collected list holds
    the payload types of the codec matches and nothing more. *)
Theorem lf_only_no_retransmission (k : Kind) (codec sdp : string) :
  forallb (fun l => negb (ends_with_cr l)) (split_lines sdp) = true ->
  (forall l, In l (split_lines sdp) -> rtxRegex_match l = None)
  /\ collect_allowed k codec (split_lines sdp)
     = flat_map (codec_part codec) (split_lines sdp).
Proof.
  intros H. split.
  - intros l Hl. rewrite forallb_forall in H. specialize (H l Hl).
    destruct (rtxRegex_match l) as [r|] eqn:E; [|reflexivity].
    apply rtxRegex_match_cr in E. rewrite E in H. discriminate.
  - rewrite collect_allowed_fold. now apply fold_collect_no_cr.
Qed.

(** C9, a run: with line feeds alone the retransmission line of 97 adds
    nothing. *)
Lemma lf_only_no_retransmission_witness :
  forallb (fun l => negb (ends_with_cr l)) (split_lines lf_only_sdp) = true
  /\ collect_allowed video H264 (split_lines lf_only_sdp) = [96%N].
Proof.
  split; [reflexivity|].
  rewrite (proj2 (lf_only_no_retransmission video H264 lf_only_sdp eq_refl)).
  reflexivity.
Defined.

(** The same section with CRLF line ends: here the rule fires. *)
Example crlf_retransmission_collected :
  collect_allowed video H264 (split_lines h264_rtx_sdp) = [96%N; 97%N].
Proof. vm_compute. reflexivity. Qed.

(** ** The second reducer *)

Lemma rewrite_step_keep (k : Kind) (allowed : list N) (b : bool)
  (old line : string) :
  rewrite_step k allowed (b, old) line
  = (next_isKind k b line,
     old ++ match keep_line k allowed (next_isKind k b line) line with
            | Some c => c ++ " " ++ nl
            | None => ""
            end).
Proof.
  unfold rewrite_step, keep_line, replace_video. fold (isIncluded allowed line).
  destruct (next_isKind k b line); [|reflexivity].
  destruct (isIncluded allowed line).
  - destruct (videoRegex_match k line) as [[before g1]|]; reflexivity.
  - now rewrite append_nil_r.
Qed.

Lemma rewrite_fold (k : Kind) (allowed : list N) (lines : list string)
  (b : bool) (old : string) :
  fold_left (rewrite_step k allowed) lines (b, old)
  = (fold_left (next_isKind k) lines b,
     old ++ render (kept k allowed b lines)).
Proof.
  revert b old; induction lines as [|l ls IH]; intros b old;
    cbn [fold_left kept].
  - simpl. now rewrite append_nil_r.
  - rewrite rewrite_step_keep, IH.
    destruct (keep_line k allowed (next_isKind k b l) l); simpl.
    + now rewrite !append_assoc.
    + now rewrite append_nil_r.
Qed.

Lemma rewrite_lines_render (k : Kind) (allowed : list N) (b : bool)
  (lines : list string) :
  rewrite_lines k allowed b lines = render (kept k allowed b lines).
Proof. unfold rewrite_lines. now rewrite rewrite_fold. Qed.

Lemma sdpFilterCodec_render (k : Kind) (codec sdp : string) :
  sdpFilterCodec k codec (Some sdp)
  = render (kept k (collect_allowed k codec (split_lines sdp)) false
              (split_lines sdp)).
Proof. unfold sdpFilterCodec. now rewrite rewrite_fold. Qed.

Lemma kept_app (k : Kind) (allowed : list N) (l1 l2 : list string)
  (b : bool) :
  kept k allowed b (l1 ++ l2)%list
  = (kept k allowed b l1
     ++ kept k allowed (fold_left (next_isKind k) l1 b) l2)%list.
Proof.
  revert b; induction l1 as [|l ls IH]; intros b; cbn [kept fold_left app].
  - reflexivity.
  - rewrite IH. now destruct (keep_line k allowed (next_isKind k b l) l).
Qed.

Lemma render_app (a b : list string) :
  render (a ++ b)%list = render a ++ render b.
Proof.
  induction a as [|c a IH]; simpl; [reflexivity|].
  now rewrite IH, !append_assoc.
Qed.

Lemma kept_length (k : Kind) (allowed : list N) (lines : list string)
  (b : bool) :
  List.length (kept k allowed b lines) <= List.length lines.
Proof.
  revert b; induction lines as [|l ls IH]; intros b; cbn [kept];
    [apply le_n|].
  destruct (keep_line k allowed (next_isKind k b l) l); simpl.
  - apply le_n_S, IH.
  - apply le_S, IH.
Qed.

(** ** Lines of a rendered document *)

Lemma split_lines_nonempty (s : string) : split_lines s <> [].
Proof.
  destruct s as [|c s]; simpl; [discriminate|].
  destruct (Ascii.eqb c LF); [discriminate|].
  destruct (split_lines s); discriminate.
Qed.

Lemma split_lines_cons (a b : string) :
  has_lf a = false ->
  split_lines (a ++ String LF b) = a :: split_lines b.
Proof.
  induction a as [|c a IH]; simpl; intros H.
  - reflexivity.
  - apply orb_false_iff in H as [Hc Ha]. rewrite Hc, (IH Ha). reflexivity.
Qed.

Lemma has_lf_append (a b : string) :
  has_lf (a ++ b) = has_lf a || has_lf b.
Proof.
  induction a as [|c a IH]; simpl; [reflexivity|].
  now rewrite IH, orb_assoc.
Qed.

Lemma split_lines_no_lf (s l : string) :
  In l (split_lines s) -> has_lf l = false.
Proof.
  revert l; induction s as [|c s IH]; simpl; intros l H.
  - destruct H as [<-|[]]. reflexivity.
  - destruct (Ascii.eqb c LF) eqn:E.
    + destruct H as [<-|H]; [reflexivity | now apply IH].
    + destruct (split_lines s) as [|h t] eqn:Es.
      * now destruct (split_lines_nonempty s).
      * destruct H as [<-|H].
        -- simpl. rewrite E. apply IH. now left.
        -- apply IH. now right.
Qed.

Lemma split_lines_render (cs : list string) :
  (forall c, In c cs -> has_lf c = false) ->
  split_lines (render cs) = (map (fun c => (c ++ " ")%string) cs ++ [""])%list.
Proof.
  induction cs as [|c cs IH]; intros H; [reflexivity|].
  change (render (c :: cs)) with (c ++ " " ++ String LF (render cs)).
  rewrite <- append_assoc, split_lines_cons.
  - rewrite IH; [reflexivity|]. intros x Hx. apply H. now right.
  - rewrite has_lf_append, (H c (or_introl eq_refl)). reflexivity.
Qed.

Lemma string_of_uint_no_lf (d : Decimal.uint) :
  has_lf (NilEmpty.string_of_uint d) = false.
Proof. induction d; simpl; auto. Qed.

Lemma number_to_string_no_lf (n : N) : has_lf (number_to_string n) = false.
Proof.
  unfold number_to_string, NilZero.string_of_uint.
  destruct (N.to_uint n); try apply string_of_uint_no_lf. reflexivity.
Qed.

Lemma number_to_string_head (n : N) :
  exists c r, number_to_string n = String c r /\ is_digit c = true.
Proof.
  unfold number_to_string, NilZero.string_of_uint.
  destruct (N.to_uint n); simpl; eauto.
Qed.

Lemma join_no_lf (arr : list N) : has_lf (join arr) = false.
Proof.
  unfold join. induction arr as [|n ns IH]; [reflexivity|].
  destruct ns as [|m ns'].
  - apply number_to_string_no_lf.
  - change (has_lf (number_to_string n ++ " "
                    ++ String.concat " " (map number_to_string (m :: ns')))
            = false).
    rewrite !has_lf_append, number_to_string_no_lf, IH. reflexivity.
Qed.

Lemma join_head (n : N) (ns : list N) :
  exists c r, join (n :: ns) = String c r /\ is_digit c = true.
Proof.
  destruct (number_to_string_head n) as (c & r & E & Hc).
  unfold join. simpl. rewrite E. destruct ns; simpl; eauto.
Qed.

Lemma replace_video_no_lf (k : Kind) (allowed : list N) (line : string) :
  has_lf line = false -> has_lf (replace_video k allowed line) = false.
Proof.
  intros H. unfold replace_video.
  destruct (videoRegex_match k line) as [[before g1]|] eqn:E; [|exact H].
  apply videoRegex_match_split in E as (tail & -> & _).
  rewrite !has_lf_append in *.
  apply orb_false_iff in H as [H1 H2]. apply orb_false_iff in H2 as [H2 _].
  now rewrite H1, H2, join_no_lf.
Qed.

Lemma kept_no_lf (k : Kind) (allowed : list N) (lines : list string)
  (b : bool) :
  (forall l, In l lines -> has_lf l = false) ->
  forall c, In c (kept k allowed b lines) -> has_lf c = false.
Proof.
  revert b; induction lines as [|l ls IH]; intros b H c Hc; cbn [kept] in Hc.
  - destruct Hc.
  - assert (Hls : forall x, In x ls -> has_lf x = false)
      by (intros x Hx; apply H; now right).
    destruct (keep_line k allowed (next_isKind k b l) l) as [t|] eqn:E.
    + destruct Hc as [<-|Hc]; [|exact (IH _ Hls c Hc)].
      unfold keep_line in E. destruct (next_isKind k b l).
      * destruct (isIncluded allowed l); [|discriminate].
        injection E as <-. apply replace_video_no_lf, H. now left.
      * injection E as <-. apply H. now left.
    + exact (IH _ Hls c Hc).
Qed.

Lemma output_lines (k : Kind) (codec sdp : string) :
  split_lines (sdpFilterCodec k codec (Some sdp))
  = (map (fun c => (c ++ " ")%string)
       (kept k (collect_allowed k codec (split_lines sdp)) false
          (split_lines sdp)) ++ [""])%list.
Proof.
  rewrite sdpFilterCodec_render. apply split_lines_render.
  apply kept_no_lf. apply split_lines_no_lf.
Qed.

(** Inside the target section a line that matches none of the mapping
    patterns leaves the accumulated output as it is. *)
Lemma unmapped_section_line_dropped (k : Kind) (allowed : list N)
  (b : bool) (old line : string) :
  next_isKind k b line = true ->
  skipRegex_match line = None ->
  rewrite_step k allowed (b, old) line = (true, old).
Proof.
  intros Hk Hs. rewrite rewrite_step_keep, Hk.
  unfold keep_line, isIncluded. rewrite Hs. now rewrite append_nil_r.
Qed.

(** ** Claims about the rewriting pass *)

(** C1 (the code departs from the claim).  The header of the target section
    is not a mapping line, so the second reducer takes the branch that drops
    it: the output for [h264_rtx_sdp] has no [m=video] line, and with no
    codec match ([vp8_only_sdp]) the whole video section is gone. *)
Theorem header_line_dropped :
  collect_allowed video H264 (split_lines h264_rtx_sdp) = [96%N; 97%N]
  /\ sdpFilterCodec video H264 (Some h264_rtx_sdp)
     = "v=0" ++ String CR (" " ++ nl) ++
       "m=audio 9 UDP/TLS/RTP/SAVPF 111" ++ String CR (" " ++ nl) ++
       "a=rtpmap:111 opus/48000/2" ++ String CR (" " ++ nl) ++
       "a=rtpmap:96 H264/90000" ++ String CR (" " ++ nl) ++
       "a=rtpmap:97 rtx/90000" ++ String CR (" " ++ nl) ++
       "a=fmtp:97 apt=96" ++ String CR (" " ++ nl)
  /\ existsb (fun l => startsWith l "m=video")
       (split_lines (sdpFilterCodec video H264 (Some h264_rtx_sdp))) = false
  /\ collect_allowed video H264 (split_lines vp8_only_sdp) = []
  /\ sdpFilterCodec video H264 (Some vp8_only_sdp)
     = "v=0" ++ String CR (" " ++ nl).
Proof. repeat split; vm_compute; reflexivity. Qed.

(** C2 (the code departs from the claim).  In [h264_rtx_sdp] the line
    [a=mid:1] lies in the video section and is neither the header nor a
    mapping line; the second reducer drops it with every other line of the
    section that names no allowed payload type. *)
Theorem section_line_dropped :
  nth_error (split_lines h264_rtx_sdp) 4 = Some ("a=mid:1" ++ String CR "")
  /\ isKind_after video (firstn 5 (split_lines h264_rtx_sdp)) = true
  /\ skipRegex_match ("a=mid:1" ++ String CR "") = None
  /\ existsb (fun l => startsWith l "a=mid:1")
       (split_lines (sdpFilterCodec video H264 (Some h264_rtx_sdp))) = false.
Proof. repeat split; vm_compute; reflexivity. Qed.

Lemma isKind_after_snoc (k : Kind) (pre : list string) (l : string) :
  isKind_after k (pre ++ [l])%list = next_isKind k (isKind_after k pre) l.
Proof. unfold isKind_after. now rewrite fold_left_app. Qed.

(** C3, as stated, fails: the first line of [h264_rtx_sdp] lies outside the
    video section, and no line of the output equals it; the output line at
    its place has one more character, a space. *)
Lemma outside_line_gains_space :
  nth_error (split_lines h264_rtx_sdp) 0 = Some ("v=0" ++ String CR "")
  /\ isKind_after video (firstn 1 (split_lines h264_rtx_sdp)) = false
  /\ nth_error (split_lines (sdpFilterCodec video H264 (Some h264_rtx_sdp))) 0
     = Some ("v=0" ++ String CR " ")
  /\ existsb (String.eqb ("v=0" ++ String CR ""))
       (split_lines (sdpFilterCodec video H264 (Some h264_rtx_sdp))) = false.
Proof. repeat split; vm_compute; reflexivity. Qed.

(** C3, amended.  A line outside the target section is copied with its
    characters unchanged and followed by a space and a line feed, between
    what the second reducer emits for the lines before it and for the lines
    after it; so the line followed by a space is a line of the output. *)
Theorem outside_line_copied_with_space (k : Kind) (codec sdp : string)
  (pre post : list string) (l : string) :
  split_lines sdp = (pre ++ l :: post)%list ->
  isKind_after k (pre ++ [l])%list = false ->
  let allowed := collect_allowed k codec (split_lines sdp) in
  sdpFilterCodec k codec (Some sdp)
  = rewrite_lines k allowed false pre ++ l ++ " " ++ nl
    ++ rewrite_lines k allowed false post
  /\ In (l ++ " ") (split_lines (sdpFilterCodec k codec (Some sdp))).
Proof.
  intros Hsplit Hout allowed.
  rewrite isKind_after_snoc in Hout.
  assert (Hkept : kept k allowed false (split_lines sdp)
                  = (kept k allowed false pre
                     ++ l :: kept k allowed false post)%list).
  { rewrite Hsplit, kept_app. cbn [kept].
    fold (isKind_after k pre). rewrite Hout. reflexivity. }
  split.
  - rewrite sdpFilterCodec_render. fold allowed.
    rewrite Hkept, render_app, !rewrite_lines_render. reflexivity.
  - rewrite output_lines. fold allowed. rewrite Hkept.
    rewrite map_app, in_app_iff. left. rewrite in_app_iff. right.
    now left.
Qed.

(** C3 amended, a run: the header of the audio section of [h264_rtx_sdp],
    which comes before the video section. *)
Lemma outside_line_copied_with_space_witness :
  let lines := split_lines h264_rtx_sdp in
  let l := "m=audio 9 UDP/TLS/RTP/SAVPF 111" ++ String CR "" in
  lines = (firstn 1 lines ++ l :: skipn 2 lines)%list
  /\ isKind_after video (firstn 1 lines ++ [l])%list = false
  /\ In (l ++ " ")
       (split_lines (sdpFilterCodec video H264 (Some h264_rtx_sdp))).
Proof.
  split; [reflexivity|]. split; [reflexivity|].
  apply (outside_line_copied_with_space video H264 h264_rtx_sdp
           (firstn 1 (split_lines h264_rtx_sdp))
           (skipn 2 (split_lines h264_rtx_sdp))
           ("m=audio 9 UDP/TLS/RTP/SAVPF 111" ++ String CR "")).
  - reflexivity.
  - reflexivity.
Defined.

(** ** Applying the filter to its own output *)

Lemma render_inj (a b : list string) :
  (forall c, In c a -> has_lf c = false) ->
  (forall c, In c b -> has_lf c = false) ->
  render a = render b -> a = b.
Proof.
  intros Ha Hb E. apply (f_equal split_lines) in E.
  rewrite !split_lines_render in E by assumption.
  apply app_inv_tail in E. clear Ha Hb.
  revert b E; induction a as [|x a IH]; intros [|y b] E; simpl in E;
    try discriminate; [reflexivity|].
  injection E as Hxy E. f_equal; [|now apply IH].
  now apply append_inv_tail in Hxy.
Qed.

Lemma media_prefix_m (k : Kind) (l : string) :
  startsWith l (media_prefix k) = true -> startsWith l "m=" = true.
Proof.
  intros H. apply startsWith_split in H. rewrite H.
  unfold media_prefix. rewrite append_assoc. apply startsWith_append.
Qed.

Lemma next_isKind_other (k : Kind) (b : bool) (l : string) :
  startsWith l "m=" = false -> next_isKind k b l = b.
Proof.
  intros H. unfold next_isKind. rewrite H.
  destruct (startsWith l (media_prefix k)) eqn:E; [|reflexivity].
  apply media_prefix_m in E. congruence.
Qed.

Lemma blank_append_space (s : string) : blank (s ++ " ") = blank s.
Proof.
  induction s as [|c s IH]; simpl; [reflexivity | now rewrite IH].
Qed.

Lemma blank_not_m (s : string) : blank s = true -> startsWith s "m=" = false.
Proof.
  destruct s as [|c s]; [reflexivity|]. simpl. intros H.
  apply andb_true_iff in H as [H _]. apply Ascii.eqb_eq in H. now subst.
Qed.

Lemma append_space_neq (c : string) : c ++ " " <> c.
Proof.
  intros H. apply (f_equal String.length) in H.
  rewrite length_append in H. simpl in H. lia.
Qed.

Lemma digit_not_space (c : ascii) : is_digit c = true -> is_space c = false.
Proof.
  unfold is_digit, is_space. intros H.
  apply andb_true_iff in H as [H1 H2].
  apply Nat.leb_le in H1, H2.
  repeat (apply orb_false_iff; split).
  - apply andb_false_iff. right. apply Nat.leb_gt. lia.
  - apply Nat.eqb_neq. lia.
  - apply Nat.eqb_neq. lia.
Qed.

Lemma payload_tail_head (c : ascii) (r : string) :
  payload_tail (String c r) = true -> is_space c = true.
Proof.
  unfold payload_tail. simpl. intros H.
  apply orb_true_iff in H as [H | H].
  - unfold all_space in H. simpl in H. now apply andb_true_iff in H as [H _].
  - destruct (Ascii.eqb c SP) eqn:E; [|discriminate].
    apply Ascii.eqb_eq in E. now subst.
Qed.

(** A line that is rewritten does not come out as the line without its last
    space: the rewritten text ends with the joined list, whose first
    character is a digit, where the payload tail starts with white space. *)
Lemma replace_video_neq (k : Kind) (allowed : list N) (c : string) :
  isIncluded allowed (c ++ " ") = true ->
  replace_video k allowed (c ++ " ") <> c.
Proof.
  intros Hinc Heq.
  assert (Hne : allowed <> []).
  { intros ->. unfold isIncluded in Hinc.
    destruct (skipRegex_match (c ++ " ")); discriminate. }
  unfold replace_video in Heq.
  destruct (videoRegex_match k (c ++ " ")) as [[before g1]|] eqn:E.
  - apply videoRegex_match_split in E as (tail & Hline & Htail).
    rewrite <- Heq in Hline at 1.
    rewrite !append_assoc in Hline.
    apply append_inv_head in Hline. apply append_inv_head in Hline.
    destruct allowed as [|n ns]; [congruence|].
    destruct (join_head n ns) as (ch & r & Hj & Hd).
    rewrite Hj in Hline. simpl in Hline. subst tail.
    apply payload_tail_head in Htail.
    rewrite (digit_not_space _ Hd) in Htail. discriminate.
  - now apply append_space_neq in Heq.
Qed.

Lemma kept_empty_line (k : Kind) (allowed : list N) (b : bool) :
  kept k allowed b [""] = if b then [] else [""].
Proof.
  cbn [kept]. rewrite next_isKind_other by reflexivity.
  now destruct b.
Qed.

(** If reading the lines [ds], each with a space appended, and the empty
    last line gives back [ds] behind one more line, then nothing was
    dropped, the flag was off, and that line is blank. *)
Lemma kept_shift (k : Kind) (allowed : list N) (ds : list string) :
  forall (b : bool) (c : string),
    kept k allowed b (map (fun d => (d ++ " ")%string) ds ++ [""])%list
    = c :: ds ->
    b = false /\ blank c = true.
Proof.
  induction ds as [|d ds IH]; intros b c H.
  - simpl app in H. rewrite kept_empty_line in H.
    destruct b; [discriminate|]. injection H as <-. now split.
  - cbn [map app kept] in H.
    destruct (keep_line k allowed (next_isKind k b (d ++ " ")) (d ++ " "))
      as [t|] eqn:E.
    + injection H as -> H. apply IH in H as [Hb Hd].
      rewrite Hb in E. cbn in E. injection E as <-.
      rewrite blank_append_space. split; [|exact Hd].
      rewrite next_isKind_other in Hb; [exact Hb|].
      apply blank_not_m. now rewrite blank_append_space.
    + apply (f_equal (@List.length string)) in H.
      pose proof (kept_length k allowed
                    (map (fun d => (d ++ " ")%string) ds ++ [""])%list
                    (next_isKind k b (d ++ " "))) as Hlen.
      rewrite H in Hlen. rewrite length_app, length_map in Hlen.
      simpl in Hlen. lia.
Qed.

Lemma kept_not_fixed (k : Kind) (allowed : list N) (cs : list string) :
  kept k allowed false (map (fun c => (c ++ " ")%string) cs ++ [""])%list
  <> cs.
Proof.
  destruct cs as [|c cs]; intros H.
  - simpl app in H. rewrite kept_empty_line in H. discriminate.
  - cbn [map app kept] in H.
    unfold keep_line in H.
    destruct (next_isKind k false (c ++ " ")) eqn:Eb.
    + destruct (isIncluded allowed (c ++ " ")) eqn:Ei.
      * injection H as H _. now apply replace_video_neq in H.
      * apply kept_shift in H as [H _]. discriminate.
    + injection H as H _. now apply append_space_neq in H.
Qed.

Lemma render_not_fixed (k : Kind) (codec : string) (cs : list string) :
  (forall c, In c cs -> has_lf c = false) ->
  sdpFilterCodec k codec (Some (render cs)) <> render cs.
Proof.
  intros Hcs H. rewrite sdpFilterCodec_render in H.
  apply render_inj in H; [| |exact Hcs].
  - rewrite split_lines_render in H by exact Hcs.
    now apply kept_not_fixed in H.
  - apply kept_no_lf, split_lines_no_lf.
Qed.

(** C7, as stated, fails: filtering the output for [h264_rtx_sdp] once more
    gives another document. *)
Lemma second_application_changes_sample :
  String.eqb
    (sdpFilterCodec video H264
       (Some (sdpFilterCodec video H264 (Some h264_rtx_sdp))))
    (sdpFilterCodec video H264 (Some h264_rtx_sdp)) = false
  /\ sdpFilterCodec video H264 (Some (sdpFilterCodec video H264 (Some "v=0")))
     = "v=0  " ++ nl ++ " " ++ nl.
Proof. split; vm_compute; reflexivity. Qed.

(** C7, amended.  The filter ends every line it emits with a space and a
    line feed, so the lines a second application reads are the emitted texts
    with a space appended, and one empty last line; what the second
    application returns is never the document it was given. *)
Theorem second_application_differs (k : Kind) (codec : string)
  (realSdp : option string) :
  sdpFilterCodec k codec (Some (sdpFilterCodec k codec realSdp))
  <> sdpFilterCodec k codec realSdp.
Proof.
  destruct realSdp as [sdp|].
  - rewrite (sdpFilterCodec_render k codec sdp).
    apply render_not_fixed. apply kept_no_lf, split_lines_no_lf.
  - apply (render_not_fixed k codec []). intros c [].
Qed.

Lemma second_application_differs_witness :
  sdpFilterCodec video H264 (Some (sdpFilterCodec video H264 (Some "v=0")))
  <> sdpFilterCodec video H264 (Some "v=0").
Proof. exact (second_application_differs video H264 (Some "v=0")). Defined.

(** ** Start and stop *)

Module LifecycleFacts.
Import Lifecycle.

(** C8.  Whatever the options, the exported function calls [startCamera]
    (through [startRecording]) while it runs: after the click listener of
    the start element, when there is one, has been registered, and before
    any click can arrive.  The connection variable is left as it was. *)
Theorem setup_starts_recording (options : RTCOptions) (w : World) :
  calls (snd (setup options w))
  = (calls w
     ++ match start options with
        | Some el => [AddEventListener el "click" ToggleRecording]
        | None => []
        end
     ++ [StartCamera (destination options) (source options)
           (with_default false (debug options))
           (with_default false (audio options))
           (with_default true (video options))]
     ++ match stop options with
        | Some el => [AddEventListener el "click" StopRecording]
        | None => []
        end)%list
  /\ pc (snd (setup options w)) = pc w.
Proof.
  destruct options as [d st sp src dbg au vi], w as [p cs].
  destruct st, sp; cbn; rewrite <- ?app_assoc; split; reflexivity.
Qed.

(** C10.  With no connection ([pc] is null) [stopRecording] returns, makes
    no call to the browser, and leaves the world, [pc] included, as it
    was. *)
Theorem stop_without_connection (options : RTCOptions) (w : World) :
  pc w = None ->
  stopRecording options w = (Undefined, w)
  /\ pc (snd (stopRecording options w)) = None
  /\ calls (snd (stopRecording options w)) = calls w.
Proof.
  destruct w as [p cs]. simpl. intros ->. repeat split.
Qed.

(** C10, a run: stopping right after the variables are initialised. *)
Lemma stop_without_connection_witness :
  pc initial = None
  /\ stopRecording
       {| destination := 0; start := Some 1; stop := Some 2;
          source := Some 3; debug := None; audio := None; video := None |}
       initial
     = (Undefined, initial).
Proof.
  split; [reflexivity|].
  apply (stop_without_connection
           {| destination := 0; start := Some 1; stop := Some 2;
              source := Some 3; debug := None; audio := None;
              video := None |}
           initial eq_refl).
Defined.

(** With a connection, [stopRecording] does the teardown and clears [pc]. *)
Example stop_with_connection :
  let c := {| connection_id := 7;
              getTransceivers := Some [{| transceiver_id := 1;
                                          has_stop := true |}];
              getSenders := [Some {| track := Some 4 |}; None] |} in
  let options := {| destination := 0; start := None; stop := None;
                    source := Some 3; debug := None; audio := None;
                    video := None |} in
  snd (stopRecording options {| pc := Some c; calls := [] |})
  = {| pc := None;
       calls := [SetSrcObjectNull 3; TransceiverStop 1; TrackStop 4;
                 SetTimeoutClose 7 500] |}.
Proof. reflexivity. Qed.

End LifecycleFacts.

(** ** [escapeRegExp] *)

Lemma backslash_special : is_regexp_special BACKSLASH = true.
Proof. reflexivity. Qed.

Lemma not_special_not_backslash (c : ascii) :
  is_regexp_special c = false -> Ascii.eqb c BACKSLASH = false.
Proof.
  unfold is_regexp_special. intros H.
  now apply orb_false_iff in H as [H _].
Qed.

(** X1.  Read back as a pattern, the text [escapeRegExp] returns matches
    its argument literally, whatever characters the argument holds. *)
Theorem escapeRegExp_literal (s : string) :
  literal_of_pattern (escapeRegExp s) = Some s.
Proof.
  induction s as [|c s IH]; [reflexivity|].
  cbn [escapeRegExp]. destruct (is_regexp_special c) eqn:E.
  - cbn [literal_of_pattern]. rewrite Ascii.eqb_refl, E, IH. reflexivity.
  - cbn [literal_of_pattern].
    rewrite (not_special_not_backslash c E), E, IH. reflexivity.
Qed.

(** X2.  [escapeRegExp] works character by character: the escape of a
    concatenation is the concatenation of the escapes, and the result has
    between one and two times the length of the argument. *)
Theorem escapeRegExp_append (a b : string) :
  escapeRegExp (a ++ b) = escapeRegExp a ++ escapeRegExp b
  /\ String.length a <= String.length (escapeRegExp a)
     <= 2 * String.length a.
Proof.
  split.
  - induction a as [|c a IH]; [reflexivity|].
    simpl. rewrite IH. now destruct (is_regexp_special c).
  - induction a as [|c a IH]; simpl; [lia|].
    destruct (is_regexp_special c); simpl; lia.
Qed.

(** X3.  [escapeRegExp] returns its argument unchanged exactly when the
    argument holds none of the characters of the class. *)
Theorem escapeRegExp_fixed_iff (s : string) :
  escapeRegExp s = s <-> no_special s = true.
Proof.
  unfold no_special. induction s as [|c s IH]; simpl.
  - tauto.
  - destruct (is_regexp_special c) eqn:E; simpl.
    + split; [|discriminate]. intros H.
      apply (f_equal String.length) in H. simpl in H.
      pose proof (proj2 (escapeRegExp_append s "")) as Hlen. lia.
    + rewrite <- IH. split; [now intros [= H] | now intros ->].
Qed.

(** The codec name the source passes holds no character of the class. *)
Example escapeRegExp_H264 : escapeRegExp H264 = H264.
Proof. reflexivity. Qed.

(** ** What the patterns match *)

Lemma drop_append (p t : string) : drop (String.length p) (p ++ t) = t.
Proof. induction p as [|c p IH]; [reflexivity | exact IH]. Qed.

Lemma strip_append (p t : string) : strip p (p ++ t) = Some t.
Proof. unfold strip. now rewrite startsWith_append, drop_append. Qed.

Lemma digits_of_sound (s d t : string) :
  digits_of s = (d, t) ->
  forallb is_digit (list_ascii_of_string d) = true /\ head_digit t = false.
Proof.
  revert d t; induction s as [|c s IH]; simpl; intros d t H.
  - injection H as <- <-. now split.
  - destruct (is_digit c) eqn:E.
    + destruct (digits_of s) as [d' t']. injection H as <- <-.
      destruct (IH d' t' eq_refl) as [Hd Ht]. simpl. now rewrite E, Hd.
    + injection H as <- <-. now split.
Qed.

Lemma digits_of_append (d t : string) :
  forallb is_digit (list_ascii_of_string d) = true ->
  head_digit t = false ->
  digits_of (d ++ t) = (d, t).
Proof.
  intros Hd Ht. induction d as [|c d IH]; simpl in *.
  - destruct t as [|x t]; [reflexivity|]. simpl in Ht. simpl.
    now rewrite Ht.
  - apply andb_true_iff in Hd as [Hc Hd]. now rewrite Hc, (IH Hd).
Qed.

Lemma all_digits_of (s d t : string) :
  digits_of s = (d, t) -> String.eqb d "" = false -> all_digits d = true.
Proof.
  intros H Hne. unfold all_digits. rewrite Hne.
  now destruct (digits_of_sound _ _ _ H) as [-> _].
Qed.

Lemma all_digits_split (d : string) :
  all_digits d = true ->
  String.eqb d "" = false
  /\ forallb is_digit (list_ascii_of_string d) = true.
Proof.
  unfold all_digits. intros H. apply andb_true_iff in H as [H1 H2].
  split; [|exact H2]. now destruct (String.eqb d "").
Qed.

Lemma search_here {A : Type} (f : string -> option A) (s : string) (r : A) :
  f s = Some r -> search f s = Some ("", r).
Proof. intros H. destruct s; simpl; now rewrite H. Qed.

(** X4.  [codecRegex].  A match means that the line holds [a=rtpmap:], a
    run of digits, a space and the codec name, and the payload type is the
    value of the digits; a line that begins in this way matches, with the
    value of its digits. *)
Theorem codecRegex_match_spec (codec line : string) (pt : N)
  (d rest : string) :
  (codecRegex_match codec line = Some pt ->
   exists pre d' rest',
     line = pre ++ "a=rtpmap:" ++ d' ++ " " ++ codec ++ rest'
     /\ all_digits d' = true /\ pt = to_number d')
  /\ (all_digits d = true ->
      codecRegex_match codec ("a=rtpmap:" ++ d ++ " " ++ codec ++ rest)
      = Some (to_number d)).
Proof.
  split.
  - unfold codecRegex_match.
    destruct (search (codecRegex_at codec) line) as [[pre x]|] eqn:E;
      [|discriminate].
    intros [= <-]. apply search_split in E as (m & -> & Hm).
    unfold codecRegex_at in Hm.
    destruct (strip "a=rtpmap:" m) as [s1|] eqn:E1; [|discriminate].
    destruct (digits_of s1) as [d' s2] eqn:E2.
    destruct (String.eqb d' "") eqn:E3; [discriminate|].
    destruct (startsWith s2 (" " ++ codec)) eqn:E4; [|discriminate].
    injection Hm as <-.
    apply strip_split in E1. apply startsWith_split in E4.
    pose proof (all_digits_of _ _ _ E2 E3) as Hd.
    apply digits_of_split in E2.
    exists pre, d', (drop (String.length (" " ++ codec)) s2).
    split; [|now split].
    rewrite E1, E2, E4 at 1. now rewrite !append_assoc.
  - intros Hd. apply all_digits_split in Hd as [Hne Hd].
    unfold codecRegex_match.
    rewrite (search_here _ _ (to_number d)); [reflexivity|].
    unfold codecRegex_at. rewrite strip_append.
    rewrite digits_of_append by (exact Hd || reflexivity).
    rewrite Hne.
    change (" " ++ codec ++ rest) with ((" " ++ codec) ++ rest).
    now rewrite startsWith_append.
Qed.

Lemma codecRegex_match_spec_witness :
  all_digits "96" = true
  /\ codecRegex_match H264 ("a=rtpmap:" ++ "96" ++ " " ++ H264 ++ String CR "")
     = Some 96%N.
Proof.
  split; [reflexivity|].
  exact (proj2 (codecRegex_match_spec H264 "" 0%N "96" (String CR ""))
           eq_refl).
Defined.

(** X5.  [rtxRegex].  A match means that the line ends with [a=fmtp:], a
    run of digits, [ apt=], a run of digits and a carriage return, the two
    numbers being the values of the runs; a line that is exactly of this
    form matches with these values. *)
Theorem rtxRegex_match_spec (line : string) (pt apt : N) (d1 d2 : string) :
  (rtxRegex_match line = Some (pt, apt) ->
   exists pre e1 e2,
     line = pre ++ "a=fmtp:" ++ e1 ++ " apt=" ++ e2 ++ String CR ""
     /\ all_digits e1 = true /\ all_digits e2 = true
     /\ pt = to_number e1 /\ apt = to_number e2)
  /\ (all_digits d1 = true -> all_digits d2 = true ->
      rtxRegex_match ("a=fmtp:" ++ d1 ++ " apt=" ++ d2 ++ String CR "")
      = Some (to_number d1, to_number d2)).
Proof.
  split.
  - unfold rtxRegex_match.
    destruct (search rtxRegex_at line) as [[pre x]|] eqn:E; [|discriminate].
    intros [= ->]. apply search_split in E as (m & -> & Hm).
    unfold rtxRegex_at in Hm.
    destruct (strip "a=fmtp:" m) as [s1|] eqn:E1; [|discriminate].
    destruct (digits_of s1) as [e1 s2] eqn:E2.
    destruct (String.eqb e1 "") eqn:N1; [discriminate|].
    destruct (strip " apt=" s2) as [s3|] eqn:E3; [|discriminate].
    destruct (digits_of s3) as [e2 s4] eqn:E4.
    destruct (String.eqb e2 "") eqn:N2; [discriminate|].
    destruct (String.eqb_spec s4 (String CR "")) as [->|]; [|discriminate].
    injection Hm as <- <-.
    pose proof (all_digits_of _ _ _ E2 N1) as H1.
    pose proof (all_digits_of _ _ _ E4 N2) as H2.
    apply strip_split in E1, E3. apply digits_of_split in E2, E4. subst.
    exists pre, e1, e2. repeat split; assumption || reflexivity.
  - intros H1 H2.
    apply all_digits_split in H1 as [N1 H1].
    apply all_digits_split in H2 as [N2 H2].
    unfold rtxRegex_match.
    rewrite (search_here _ _ (to_number d1, to_number d2)); [reflexivity|].
    unfold rtxRegex_at. rewrite strip_append.
    rewrite digits_of_append by (exact H1 || reflexivity).
    rewrite N1, strip_append.
    rewrite digits_of_append by (exact H2 || reflexivity).
    rewrite N2, String.eqb_refl. reflexivity.
Qed.

Lemma rtxRegex_match_spec_witness :
  all_digits "97" = true /\ all_digits "96" = true
  /\ rtxRegex_match ("a=fmtp:" ++ "97" ++ " apt=" ++ "96" ++ String CR "")
     = Some (97%N, 96%N).
Proof.
  split; [reflexivity|]. split; [reflexivity|].
  exact (proj2 (rtxRegex_match_spec "" 0%N 0%N "97" "96") eq_refl eq_refl).
Defined.

(** X6.  [skipRegex].  A match means that the line holds [a=fmtp:],
    [a=rtcp-fb:] or [a=rtpmap:] followed by a run of digits whose value is
    the number read; a line that begins with one of the three and a run of
    digits, not followed by a further digit, matches with the value of the
    run. *)
Theorem skipRegex_match_spec (line : string) (pt : N)
  (name d rest : string) :
  (skipRegex_match line = Some pt ->
   exists pre name' d' rest',
     In name' ["fmtp"; "rtcp-fb"; "rtpmap"]
     /\ line = pre ++ "a=" ++ name' ++ ":" ++ d' ++ rest'
     /\ all_digits d' = true /\ pt = to_number d')
  /\ (In name ["fmtp"; "rtcp-fb"; "rtpmap"] ->
      all_digits d = true -> head_digit rest = false ->
      skipRegex_match ("a=" ++ name ++ ":" ++ d ++ rest)
      = Some (to_number d)).
Proof.
  split.
  - unfold skipRegex_match.
    destruct (search skipRegex_at line) as [[pre x]|] eqn:E; [|discriminate].
    intros [= ->]. apply search_split in E as (m & -> & Hm).
    unfold skipRegex_at in Hm.
    destruct (strip "a=" m) as [s1|] eqn:E0; [|discriminate].
    apply strip_split in E0 as ->.
    assert (Hafter : forall nm,
      match strip nm s1 with
      | Some s2 =>
          match strip ":" s2 with
          | Some s3 =>
              let '(d, _) := digits_of s3 in
              if String.eqb d "" then None else Some (to_number d)
          | None => None
          end
      | None => None
      end = Some pt ->
      exists d' rest', s1 = nm ++ ":" ++ d' ++ rest'
                       /\ all_digits d' = true /\ pt = to_number d').
    { intros nm H.
      destruct (strip nm s1) as [s2|] eqn:E1; [|discriminate].
      destruct (strip ":" s2) as [s3|] eqn:E2; [|discriminate].
      destruct (digits_of s3) as [d' t] eqn:E3.
      destruct (String.eqb d' "") eqn:N1; [discriminate|].
      injection H as <-.
      pose proof (all_digits_of _ _ _ E3 N1) as Hd.
      apply strip_split in E1, E2. apply digits_of_split in E3. subst.
      now exists d', t. }
    match type of Hm with
    | match ?a with _ => _ end = _ => destruct a as [n1|] eqn:A1
    end.
    + injection Hm as ->. destruct (Hafter _ A1) as (d' & r' & -> & Hd & Hp).
      exists pre, "fmtp", d', r'. simpl. tauto.
    + match type of Hm with
      | match ?a with _ => _ end = _ => destruct a as [n2|] eqn:A2
      end.
      * injection Hm as ->.
        destruct (Hafter _ A2) as (d' & r' & -> & Hd & Hp).
        exists pre, "rtcp-fb", d', r'. simpl. tauto.
      * destruct (Hafter _ Hm) as (d' & r' & -> & Hd & Hp).
        exists pre, "rtpmap", d', r'. simpl. tauto.
  - intros Hname Hd Hrest. apply all_digits_split in Hd as [Hne Hd].
    unfold skipRegex_match.
    rewrite (search_here _ _ (to_number d)); [reflexivity|].
    unfold skipRegex_at. rewrite strip_append.
    pose proof (digits_of_append d rest Hd Hrest) as Hdig.
    destruct Hname as [<-|[<-|[<-|[]]]]; cbn - [digits_of to_number];
      change (String ":" (d ++ rest)) with (":" ++ d ++ rest);
      rewrite strip_append, Hdig, Hne; reflexivity.
Qed.

Lemma skipRegex_match_spec_witness :
  In "rtcp-fb" ["fmtp"; "rtcp-fb"; "rtpmap"]
  /\ all_digits "98" = true /\ head_digit " nack pli" = false
  /\ skipRegex_match ("a=" ++ "rtcp-fb" ++ ":" ++ "98" ++ " nack pli")
     = Some 98%N.
Proof.
  split; [right; left; reflexivity|].
  split; [reflexivity|]. split; [reflexivity|].
  exact (proj2 (skipRegex_match_spec "" 0%N "rtcp-fb" "98" " nack pli")
           (or_intror (or_introl eq_refl)) eq_refl eq_refl).
Defined.

(** ** More on the collected list *)

Lemma collect_line_keeps (codec : string) (old : list N) (l : string)
  (z : N) :
  In z old -> In z (collect_line codec old l).
Proof. intros H. unfold collect_line. rewrite !in_app_iff. tauto. Qed.

Lemma fold_collect_keeps (codec : string) (lines : list string)
  (old : list N) (z : N) :
  In z old -> In z (fold_left (collect_line codec) lines old).
Proof.
  intros H. destruct (fold_collect_extends codec lines old) as [a ->].
  apply in_app_iff. now left.
Qed.

(** X7.  Every entry of the collected list comes from a line of the
    document: it is the payload type of a line matching the codec pattern,
    or the own payload type of a line matching the retransmission pattern
    whose base is itself in the list. *)
Theorem allowed_entries_justified (k : Kind) (codec : string)
  (lines : list string) (x : N) :
  In x (collect_allowed k codec lines) ->
  (exists l, In l lines /\ codecRegex_match codec l = Some x)
  \/ (exists l apt, In l lines /\ rtxRegex_match l = Some (x, apt)
                    /\ In apt (collect_allowed k codec lines)).
Proof.
  rewrite collect_allowed_fold. revert x.
  induction lines as [|l pre IH] using rev_ind; intros x H.
  - destruct H.
  - rewrite fold_left_app in *. cbn [fold_left] in *.
    set (F := fold_left (collect_line codec) pre []) in *.
    unfold collect_line in H. rewrite !in_app_iff in H.
    destruct H as [[H | H] | H].
    + destruct (IH x H) as [(l' & Hl & Hc) | (l' & apt & Hl & Hr & Ha)].
      * left. exists l'. split; [apply in_app_iff; now left | exact Hc].
      * right. exists l', apt. split; [apply in_app_iff; now left|].
        split; [exact Hr | now apply collect_line_keeps].
    + left. exists l. split; [apply in_app_iff; right; now left|].
      unfold codec_part in H.
      destruct (codecRegex_match codec l); [|destruct H].
      destruct H as [->|[]]. reflexivity.
    + right. unfold rtx_part in H.
      destruct (rtxRegex_match l) as [[pt apt]|] eqn:E; [|destruct H].
      destruct (includes apt _) eqn:Ei; [|destruct H].
      destruct H as [->|[]]. exists l, apt.
      split; [apply in_app_iff; right; now left|]. split; [exact E|].
      apply includes_In in Ei. unfold collect_line.
      apply in_app_iff. now left.
Qed.

Lemma allowed_entries_justified_witness :
  In 97%N (collect_allowed video H264 (split_lines h264_rtx_sdp))
  /\ ((exists l, In l (split_lines h264_rtx_sdp)
                 /\ codecRegex_match H264 l = Some 97%N)
      \/ (exists l apt,
             In l (split_lines h264_rtx_sdp)
             /\ rtxRegex_match l = Some (97%N, apt)
             /\ In apt (collect_allowed video H264
                          (split_lines h264_rtx_sdp)))).
Proof.
  assert (H : In 97%N (collect_allowed video H264
                         (split_lines h264_rtx_sdp)))
    by (vm_compute; right; left; reflexivity).
  split; [exact H|].
  exact (allowed_entries_justified video H264 (split_lines h264_rtx_sdp)
           97%N H).
Defined.

(** X8.  The payload type of every line matching the codec pattern is in
    the collected list, wherever the line stands in the document. *)
Theorem codec_match_collected (k : Kind) (codec : string)
  (lines : list string) (l : string) (pt : N) :
  In l lines ->
  codecRegex_match codec l = Some pt ->
  In pt (collect_allowed k codec lines).
Proof.
  intros Hl Hm. apply in_split in Hl as (l1 & l2 & ->).
  rewrite collect_allowed_fold, fold_left_app. cbn [fold_left].
  apply fold_collect_keeps. unfold collect_line, codec_part.
  rewrite Hm, !in_app_iff. left. right. now left.
Qed.

Lemma codec_match_collected_witness :
  In ("a=rtpmap:96 H264/90000" ++ String CR "") (split_lines h264_rtx_sdp)
  /\ codecRegex_match H264 ("a=rtpmap:96 H264/90000" ++ String CR "")
     = Some 96%N
  /\ In 96%N (collect_allowed video H264 (split_lines h264_rtx_sdp)).
Proof.
  assert (H : In ("a=rtpmap:96 H264/90000" ++ String CR "")
                (split_lines h264_rtx_sdp))
    by (vm_compute; do 5 right; left; reflexivity).
  split; [exact H|]. split; [reflexivity|].
  exact (codec_match_collected video H264 (split_lines h264_rtx_sdp)
           ("a=rtpmap:96 H264/90000" ++ String CR "") 96%N H eq_refl).
Defined.

(** ** More on the rewriting pass *)

Lemma kept_nil (k : Kind) (lines : list string) (b : bool) :
  kept k [] b lines = outside_lines k b lines.
Proof.
  revert b; induction lines as [|l ls IH]; intros b; cbn [kept outside_lines];
    [reflexivity|].
  unfold keep_line, isIncluded.
  destruct (next_isKind k b l).
  - destruct (skipRegex_match l); simpl; apply IH.
  - now rewrite IH.
Qed.

Lemma fold_collect_no_codec (codec : string) (lines : list string) :
  forallb (fun l => match codecRegex_match codec l with
                    | Some _ => false
                    | None => true
                    end) lines = true ->
  fold_left (collect_line codec) lines [] = [].
Proof.
  induction lines as [|l ls IH]; intros H; simpl in *; [reflexivity|].
  apply andb_true_iff in H as [Hl Hls].
  unfold collect_line, codec_part, rtx_part.
  destruct (codecRegex_match codec l); [discriminate|].
  destruct (rtxRegex_match l) as [[pt apt]|]; simpl; now apply IH.
Qed.

(** X9.  When no line of the document matches the codec pattern, the
    collected list is empty (a retransmission line finds no base), and the
    output holds the lines outside the target section, each followed by a
    space and a line feed, and nothing of the section. *)
Theorem codec_absent_section_removed (k : Kind) (codec sdp : string) :
  forallb (fun l => match codecRegex_match codec l with
                    | Some _ => false
                    | None => true
                    end) (split_lines sdp) = true ->
  collect_allowed k codec (split_lines sdp) = []
  /\ sdpFilterCodec k codec (Some sdp)
     = render (outside_lines k false (split_lines sdp)).
Proof.
  intros H.
  assert (Ha : collect_allowed k codec (split_lines sdp) = [])
    by (rewrite collect_allowed_fold; now apply fold_collect_no_codec).
  split; [exact Ha|].
  now rewrite sdpFilterCodec_render, Ha, kept_nil.
Qed.

Lemma codec_absent_section_removed_witness :
  forallb (fun l => match codecRegex_match H264 l with
                    | Some _ => false
                    | None => true
                    end) (split_lines vp8_only_sdp) = true
  /\ sdpFilterCodec video H264 (Some vp8_only_sdp)
     = render (outside_lines video false (split_lines vp8_only_sdp)).
Proof.
  split; [reflexivity|].
  exact (proj2 (codec_absent_section_removed video H264 vp8_only_sdp
                  eq_refl)).
Defined.

Lemma kept_no_header (k : Kind) (allowed : list N) (lines : list string) :
  forallb (fun l => negb (startsWith l (media_prefix k))) lines = true ->
  kept k allowed false lines = lines.
Proof.
  induction lines as [|l ls IH]; intros H; simpl in H; [reflexivity|].
  apply andb_true_iff in H as [Hl Hls]. cbn [kept].
  unfold next_isKind. apply negb_true_iff in Hl. rewrite Hl, andb_false_r.
  simpl. now rewrite (IH Hls).
Qed.

(** X10.  A document in which no line starts a section of the target kind
    is passed through whatever the codec: every line is copied, followed by
    a space and a line feed. *)
Theorem no_target_section_passthrough (k : Kind) (codec sdp : string) :
  forallb (fun l => negb (startsWith l (media_prefix k)))
    (split_lines sdp) = true ->
  sdpFilterCodec k codec (Some sdp) = render (split_lines sdp).
Proof.
  intros H. now rewrite sdpFilterCodec_render, kept_no_header.
Qed.

Lemma no_target_section_passthrough_witness :
  forallb (fun l => negb (startsWith l (media_prefix audio)))
    (split_lines vp8_only_sdp) = true
  /\ sdpFilterCodec audio H264 (Some vp8_only_sdp)
     = render (split_lines vp8_only_sdp).
Proof.
  split; [reflexivity|].
  exact (no_target_section_passthrough audio H264 vp8_only_sdp eq_refl).
Defined.

Lemma kept_origin (k : Kind) (allowed : list N) (lines : list string)
  (b : bool) (c : string) :
  In c (kept k allowed b lines) ->
  exists l, In l lines /\ (c = l \/ c = replace_video k allowed l).
Proof.
  revert b; induction lines as [|l ls IH]; intros b H; cbn [kept] in H.
  - destruct H.
  - destruct (keep_line k allowed (next_isKind k b l) l) as [t|] eqn:E.
    + destruct H as [<-|H].
      * exists l. split; [now left|]. unfold keep_line in E.
        destruct (next_isKind k b l).
        -- destruct (isIncluded allowed l); [|discriminate].
           injection E as <-. now right.
        -- injection E as <-. now left.
      * destruct (IH _ H) as (l' & Hl & Hc). exists l'. split; [now right|].
        exact Hc.
    + destruct (IH _ H) as (l' & Hl & Hc). exists l'. split; [now right|].
      exact Hc.
Qed.

(** X11.  The shape of the output.  Split at its line feeds, the output is
    a list of texts each ended by a space, then one empty piece; there are
    no more texts than input lines, and each text is an input line or an
    input line rewritten by the header replacement: the filter adds no line
    of its own.  For an absent document the output is empty. *)
Theorem output_shape (k : Kind) (codec sdp : string) :
  (exists cs,
      split_lines (sdpFilterCodec k codec (Some sdp))
      = (map (fun c => (c ++ " ")%string) cs ++ [""])%list
      /\ List.length cs <= List.length (split_lines sdp)
      /\ forall c, In c cs ->
           exists l, In l (split_lines sdp)
                     /\ (c = l \/
                         c = replace_video k
                               (collect_allowed k codec (split_lines sdp))
                               l))
  /\ sdpFilterCodec k codec None = "".
Proof.
  split; [|reflexivity].
  exists (kept k (collect_allowed k codec (split_lines sdp)) false
            (split_lines sdp)).
  split; [apply output_lines|]. split; [apply kept_length|].
  intros c. apply kept_origin.
Qed.

Lemma kept_at (k : Kind) (allowed : list N) (pre post : list string)
  (l : string) :
  kept k allowed false (pre ++ l :: post)%list
  = (kept k allowed false pre
     ++ match keep_line k allowed (isKind_after k (pre ++ [l])%list) l with
        | Some c => [c]
        | None => []
        end
     ++ kept k allowed (isKind_after k (pre ++ [l])%list) post)%list.
Proof.
  rewrite kept_app, isKind_after_snoc. cbn [kept].
  fold (isKind_after k pre).
  now destruct (keep_line k allowed (next_isKind k (isKind_after k pre) l) l).
Qed.

(** X12.  A mapping line of the target section whose payload type is not in
    the collected list leaves no trace in the output: the output is what the
    second reducer emits for the lines before it followed by what it emits
    for the lines after it. *)
Theorem disallowed_mapping_line_dropped (k : Kind) (codec sdp : string)
  (pre post : list string) (l : string) (pt : N) :
  split_lines sdp = (pre ++ l :: post)%list ->
  isKind_after k (pre ++ [l])%list = true ->
  skipRegex_match l = Some pt ->
  includes pt (collect_allowed k codec (split_lines sdp)) = false ->
  let allowed := collect_allowed k codec (split_lines sdp) in
  sdpFilterCodec k codec (Some sdp)
  = rewrite_lines k allowed false pre ++ rewrite_lines k allowed true post.
Proof.
  intros Hsplit Hin Hskip Hnot allowed.
  rewrite sdpFilterCodec_render. fold allowed.
  rewrite Hsplit, kept_at, Hin.
  unfold keep_line, isIncluded. rewrite Hskip. fold allowed in Hnot.
  rewrite Hnot. simpl app.
  now rewrite render_app, !rewrite_lines_render.
Qed.

Lemma disallowed_mapping_line_dropped_witness :
  let lines := split_lines h264_rtx_sdp in
  let l := "a=rtpmap:98 VP8/90000" ++ String CR "" in
  lines = (firstn 8 lines ++ l :: skipn 9 lines)%list
  /\ sdpFilterCodec video H264 (Some h264_rtx_sdp)
     = rewrite_lines video (collect_allowed video H264 lines) false
         (firstn 8 lines)
       ++ rewrite_lines video (collect_allowed video H264 lines) true
            (skipn 9 lines).
Proof.
  split; [reflexivity|].
  exact (disallowed_mapping_line_dropped video H264 h264_rtx_sdp
           (firstn 8 (split_lines h264_rtx_sdp))
           (skipn 9 (split_lines h264_rtx_sdp))
           ("a=rtpmap:98 VP8/90000" ++ String CR "") 98%N
           eq_refl eq_refl eq_refl eq_refl).
Defined.

(** X13.  A mapping line of the target section whose payload type is in the
    collected list, and which does not itself hold a media header, is copied
    with its characters unchanged, followed by a space and a line feed. *)
Theorem allowed_mapping_line_copied (k : Kind) (codec sdp : string)
  (pre post : list string) (l : string) (pt : N) :
  split_lines sdp = (pre ++ l :: post)%list ->
  isKind_after k (pre ++ [l])%list = true ->
  skipRegex_match l = Some pt ->
  includes pt (collect_allowed k codec (split_lines sdp)) = true ->
  videoRegex_match k l = None ->
  let allowed := collect_allowed k codec (split_lines sdp) in
  sdpFilterCodec k codec (Some sdp)
  = rewrite_lines k allowed false pre ++ l ++ " " ++ nl
    ++ rewrite_lines k allowed true post.
Proof.
  intros Hsplit Hin Hskip Hinc Hvid allowed.
  rewrite sdpFilterCodec_render. fold allowed.
  rewrite Hsplit, kept_at, Hin.
  unfold keep_line, isIncluded, replace_video. rewrite Hskip, Hvid.
  fold allowed in Hinc. rewrite Hinc. simpl app.
  rewrite render_app. cbn [render]. now rewrite !rewrite_lines_render.
Qed.

Lemma allowed_mapping_line_copied_witness :
  let lines := split_lines h264_rtx_sdp in
  let l := "a=rtpmap:97 rtx/90000" ++ String CR "" in
  lines = (firstn 6 lines ++ l :: skipn 7 lines)%list
  /\ sdpFilterCodec video H264 (Some h264_rtx_sdp)
     = rewrite_lines video (collect_allowed video H264 lines) false
         (firstn 6 lines)
       ++ l ++ " " ++ nl
       ++ rewrite_lines video (collect_allowed video H264 lines) true
            (skipn 7 lines).
Proof.
  split; [reflexivity|].
  exact (allowed_mapping_line_copied video H264 h264_rtx_sdp
           (firstn 6 (split_lines h264_rtx_sdp))
           (skipn 7 (split_lines h264_rtx_sdp))
           ("a=rtpmap:97 rtx/90000" ++ String CR "") 97%N
           eq_refl eq_refl eq_refl eq_refl eq_refl).
Defined.

(** ** Waiting for the ICE candidates *)

Module IceWaitFacts.
Import IceWait.

Lemma executor_inv (s0 : RTCIceGatheringState) :
  settled_or_listening (executor s0).
Proof. destruct s0; [left | left | right]; now split. Qed.

Lemma dispatch_inv (w : Wait) (s : RTCIceGatheringState) :
  settled_or_listening w -> settled_or_listening (dispatch w s).
Proof.
  intros [[Hl Hr] | [Hl Hr]]; unfold dispatch, checkState; rewrite Hl.
  - destruct s; simpl; [left | left | right]; rewrite ?Hr; now split.
  - right. now split.
Qed.

Lemma fold_dispatch_inv (evs : list RTCIceGatheringState) (w : Wait) :
  settled_or_listening w -> settled_or_listening (fold_left dispatch evs w).
Proof.
  revert w; induction evs as [|e evs IH]; intros w H; simpl; [exact H|].
  now apply IH, dispatch_inv.
Qed.

Lemma fold_dispatch_resolved (evs : list RTCIceGatheringState) (w : Wait) :
  settled_or_listening w ->
  (resolved (fold_left dispatch evs w) = 1
   <-> resolved w = 1 \/ In complete evs).
Proof.
  revert w; induction evs as [|e evs IH]; intros w H; simpl.
  - tauto.
  - rewrite (IH _ (dispatch_inv w e H)).
    destruct H as [[Hl Hr] | [Hl Hr]]; unfold dispatch, checkState;
      rewrite Hl.
    + destruct e; simpl; rewrite ?Hr; split; intros [A | A];
        try discriminate; try tauto;
        try (destruct A as [A | A]; [discriminate | tauto]).
    + rewrite Hr. tauto.
Qed.

Lemma fold_dispatch_done (evs : list RTCIceGatheringState) (w : Wait) :
  listening w = false -> fold_left dispatch evs w = w.
Proof.
  intros H. induction evs as [|e evs IH]; simpl; [reflexivity|].
  unfold dispatch at 2. now rewrite H.
Qed.

(** X14.  The wait of [negotiate] calls [resolve] at most once, and it has
    called it exactly when the connection was already [complete] as the
    promise was created or a state change to [complete] has arrived since:
    a completion that comes first is not missed, and none is counted
    twice. *)
Theorem wait_resolves_once (s0 : RTCIceGatheringState)
  (events : list RTCIceGatheringState) :
  resolved (wait s0 events) <= 1
  /\ (resolved (wait s0 events) = 1
      <-> s0 = complete \/ In complete events).
Proof.
  unfold wait. split.
  - destruct (fold_dispatch_inv events _ (executor_inv s0))
      as [[_ ->] | [_ ->]]; lia.
  - rewrite (fold_dispatch_resolved events _ (executor_inv s0)).
    destruct s0; simpl; split; intros [A | A];
      try discriminate; try tauto.
Qed.

(** X15.  The listener [checkState] is registered exactly while the promise
    is pending: it is not registered when the connection is [complete] from
    the start, it is removed by the call that resolves, and the events that
    come after the resolution change nothing. *)
Theorem wait_listener_removed (s0 : RTCIceGatheringState)
  (events later : list RTCIceGatheringState) :
  (listening (wait s0 events) = true <-> resolved (wait s0 events) = 0)
  /\ (resolved (wait s0 events) = 1 ->
      wait s0 (events ++ later) = wait s0 events).
Proof.
  pose proof (fold_dispatch_inv events _ (executor_inv s0)) as H.
  fold (wait s0 events) in H. split.
  - destruct H as [[Hl Hr] | [Hl Hr]]; rewrite Hl, Hr; split;
      intros; reflexivity || discriminate.
  - intros Hres. unfold wait. rewrite fold_left_app.
    apply fold_dispatch_done. fold (wait s0 events).
    destruct H as [[_ Hr] | [Hl _]]; [|exact Hl].
    rewrite Hr in Hres. discriminate.
Qed.

Lemma wait_listener_removed_witness :
  resolved (wait new [gathering; complete]) = 1
  /\ wait new ([gathering; complete] ++ [complete; gathering])
     = wait new [gathering; complete].
Proof.
  split; [reflexivity|].
  exact (proj2 (wait_listener_removed new [gathering; complete]
                  [complete; gathering]) eq_refl).
Defined.

End IceWaitFacts.

(** ** More on start and stop *)

Module LifecycleMore.
Import Lifecycle.

Lemma forEach_calls {A : Type} (f : A -> M unit) (g : A -> list Call)
  (xs : list A) :
  (forall x w, f x w = (tt, {| pc := pc w; calls := (calls w ++ g x)%list |}))
  ->
  forall w, forEach f xs w
            = (tt, {| pc := pc w;
                      calls := (calls w ++ flat_map g xs)%list |}).
Proof.
  intros Hf. induction xs as [|x xs IH]; intros w; simpl.
  - rewrite app_nil_r. now destruct w.
  - unfold bind. rewrite Hf, IH. simpl. now rewrite <- app_assoc.
Qed.

(** X16.  The calls [stopCamera] makes, in order: the preview is cleared
    when there is one; every transceiver that has a [stop] method is
    stopped, when the connection has [getTransceivers]; the track of every
    sender that has one is stopped; the close of the connection is scheduled
    once, after 500 ms.  The variable [pc] is not touched and the
    connection is returned. *)
Theorem stopCamera_calls (c : RTCPeerConnection)
  (displaySource : option Element) (w : World) :
  stopCamera c displaySource w
  = (c, {| pc := pc w;
           calls :=
             (calls w
              ++ match displaySource with
                 | Some el => [SetSrcObjectNull el]
                 | None => []
                 end
              ++ match getTransceivers c with
                 | Some ts =>
                     map (fun t => TransceiverStop (transceiver_id t))
                       (filter has_stop ts)
                 | None => []
                 end
              ++ flat_map sender_calls (getSenders c)
              ++ [SetTimeoutClose (connection_id c) 500])%list |}).
Proof.
  assert (Htr : forall ts w0,
    forEach stopTransceiver ts w0
    = (tt, {| pc := pc w0;
              calls := (calls w0
                        ++ map (fun t => TransceiverStop (transceiver_id t))
                             (filter has_stop ts))%list |})).
  { intros ts w0.
    rewrite (forEach_calls stopTransceiver
               (fun t => if has_stop t
                         then [TransceiverStop (transceiver_id t)] else [])).
    - do 3 f_equal. induction ts as [|t ts IH]; [reflexivity|].
      simpl. destruct (has_stop t); simpl; now rewrite IH.
    - intros t w1. unfold stopTransceiver.
      destruct (has_stop t); [reflexivity|].
      unfold ret. rewrite app_nil_r. now destruct w1. }
  assert (Hsn : forall ss w0,
    forEach (fun sender : option Sender =>
               when_some sender (fun s =>
               when_some (track s) (fun t => call (TrackStop t)))) ss w0
    = (tt, {| pc := pc w0;
              calls := (calls w0 ++ flat_map sender_calls ss)%list |})).
  { intros ss w0. apply forEach_calls. intros [[[t|]]|] w1; simpl;
      try reflexivity; unfold ret; rewrite app_nil_r; now destruct w1. }
  unfold stopCamera, bind.
  destruct displaySource as [el|], (getTransceivers c) as [ts|];
    cbn [when_some]; unfold call, ret;
    rewrite ?Htr, Hsn; cbn [pc calls];
    rewrite <- ?app_assoc, ?app_nil_r; reflexivity.
Qed.

(** X17.  Whatever the world, [stopRecording] leaves [pc] null, and a
    second [stopRecording] right after makes no call and changes nothing. *)
Theorem stopRecording_idempotent (options : RTCOptions) (w : World) :
  pc (snd (stopRecording options w)) = None
  /\ stopRecording options (snd (stopRecording options w))
     = (Undefined, snd (stopRecording options w)).
Proof.
  assert (H : pc (snd (stopRecording options w)) = None).
  { unfold stopRecording, bind, get_pc, set_pc, ret.
    destruct (pc w) as [c|]; [|reflexivity].
    now destruct (stopCamera c (source options) w). }
  split; [exact H|].
  destruct (snd (stopRecording options w)) as [p cs]. simpl in H.
  now subst p.
Qed.

(** X18.  A click on the start element while [pc] is null, as it still is
    when the exported function returns, calls [startCamera] once more; with
    a connection it does what [stopRecording] does. *)
Theorem start_click_toggles (options : RTCOptions) (w : World)
  (c : RTCPeerConnection) :
  (pc w = None ->
   snd (run_handler options ToggleRecording (snd (setup options w)))
   = {| pc := None;
        calls :=
          (calls (snd (setup options w))
           ++ [StartCamera (destination options) (source options)
                 (with_default false (debug options))
                 (with_default false (audio options))
                 (with_default true (video options))])%list |})
  /\ (pc w = Some c ->
      run_handler options ToggleRecording w = stopRecording options w).
Proof.
  split.
  - intros Hpc.
    destruct options as [d st sp src dbg au vi], w as [p cs].
    simpl in Hpc. subst p. destruct st, sp; reflexivity.
  - intros Hpc. destruct w as [p cs]. simpl in Hpc. subst p. reflexivity.
Qed.

Lemma start_click_toggles_witness :
  let options := {| destination := 0; start := Some 1; stop := None;
                    source := None; debug := None; audio := None;
                    video := None |} in
  pc initial = None
  /\ calls (snd (run_handler options ToggleRecording
                   (snd (setup options initial))))
     = [AddEventListener 1 "click" ToggleRecording;
        StartCamera 0 None false false true;
        StartCamera 0 None false false true].
Proof.
  split; [reflexivity|].
  rewrite (proj1 (start_click_toggles
                    {| destination := 0; start := Some 1; stop := None;
                       source := None; debug := None; audio := None;
                       video := None |}
                    initial
                    {| connection_id := 0; getTransceivers := None;
                       getSenders := [] |}) eq_refl).
  reflexivity.
Defined.

End LifecycleMore.

(** ** The header replacement *)

Lemma all_space_payload_chars (s : string) :
  all_space s = true ->
  forallb (fun c => is_digit c || is_space c) (list_ascii_of_string s)
  = true.
Proof.
  unfold all_space. induction s as [|c s IH]; simpl; [reflexivity|].
  intros H. apply andb_true_iff in H as [Hc Hs].
  now rewrite Hc, orb_true_r, (IH Hs).
Qed.

Lemma forallb_string_append (P : ascii -> bool) (a b : string) :
  forallb P (list_ascii_of_string (a ++ b))
  = forallb P (list_ascii_of_string a)
    && forallb P (list_ascii_of_string b).
Proof.
  induction a as [|c a IH]; simpl; [reflexivity|].
  now rewrite IH, andb_assoc.
Qed.

Lemma payload_tail_fuel_chars (fuel : nat) (s : string) :
  payload_tail_fuel fuel s = true ->
  forallb (fun c => is_digit c || is_space c) (list_ascii_of_string s)
  = true.
Proof.
  revert s; induction fuel as [|f IH]; intros s H; simpl in H.
  - apply orb_true_iff in H as [H | H]; [|now destruct s].
    now apply all_space_payload_chars.
  - apply orb_true_iff in H as [H | H];
      [now apply all_space_payload_chars|].
    destruct s as [|c r]; [discriminate|].
    destruct (Ascii.eqb c SP) eqn:Ec; [|discriminate].
    destruct (digits_of r) as [d t] eqn:Ed.
    apply andb_true_iff in H as [_ Ht].
    apply Ascii.eqb_eq in Ec. subst c.
    destruct (digits_of_sound _ _ _ Ed) as [Hd _].
    apply digits_of_split in Ed. subst r. simpl.
    rewrite forallb_string_append, (IH _ Ht), andb_true_r.
    clear - Hd. induction d as [|x d IHd]; simpl in *; [reflexivity|].
    apply andb_true_iff in Hd as [Hx Hd]. now rewrite Hx, (IHd Hd).
Qed.

Lemma forallb_last_char (P : ascii -> bool) (a b : string) (c : ascii) :
  forallb P (list_ascii_of_string (a ++ b)) = true ->
  last_char a = Some c -> P c = true.
Proof.
  rewrite forallb_string_append. intros H Hl.
  apply andb_true_iff in H as [H _].
  induction a as [|x a IH]; [discriminate|].
  simpl in H. apply andb_true_iff in H as [Hx Ha].
  destruct a as [|y a].
  - simpl in Hl. now injection Hl as <-.
  - apply IH; [exact Ha | exact Hl].
Qed.

Lemma last_char_cons (c : ascii) (x : string) :
  last_char (String c x) <> None.
Proof.
  revert c; induction x as [|y x IH]; intros c; [discriminate|].
  exact (IH y).
Qed.

Lemma lazy_prefix_solid (x tail : string) :
  no_terminator x = true -> solid_end x = true ->
  payload_tail tail = true ->
  lazy_prefix (x ++ tail) = Some x.
Proof.
  intros Hnt Hse Ht. induction x as [|c x IH].
  - simpl append. destruct tail; cbn [lazy_prefix]; now rewrite Ht.
  - assert (Hno : payload_tail (String c x ++ tail) = false).
    { destruct (payload_tail (String c x ++ tail)) eqn:E; [|reflexivity].
      apply payload_tail_fuel_chars in E.
      unfold solid_end in Hse.
      destruct (last_char (String c x)) as [z|] eqn:El.
      - rewrite (forallb_last_char _ _ _ _ E El) in Hse. discriminate.
      - now apply last_char_cons in El. }
    change (lazy_prefix (String c (x ++ tail)) = Some (String c x)).
    cbn [lazy_prefix]. change (String c (x ++ tail)) with (String c x ++ tail).
    rewrite Hno. unfold no_terminator in Hnt. simpl in Hnt.
    apply andb_true_iff in Hnt as [Hc Hx].
    apply negb_true_iff in Hc. rewrite Hc.
    rewrite IH; [reflexivity | exact Hx |].
    unfold solid_end in *. destruct x as [|y x]; [reflexivity | exact Hse].
Qed.

(** X19.  The replacement on a media header.  When the header is the media
    prefix, a text without line terminators that ends with a character
    other than a digit or white space, and then a payload list with
    trailing white space, the replacement keeps the prefix and the text and
    puts the joined list directly behind them: the old payload list and the
    trailing white space are gone, and no separator is put before the new
    list. *)
Theorem replace_video_header (k : Kind) (allowed : list N)
  (x tail : string) :
  no_terminator x = true -> solid_end x = true ->
  payload_tail tail = true ->
  replace_video k allowed (media_prefix k ++ x ++ tail)
  = media_prefix k ++ x ++ join allowed.
Proof.
  intros Hnt Hse Ht. unfold replace_video, videoRegex_match.
  rewrite (search_here _ _ (media_prefix k ++ x)).
  - simpl append at 1. now rewrite append_assoc.
  - unfold videoRegex_at. rewrite strip_append.
    now rewrite lazy_prefix_solid.
Qed.

Lemma replace_video_header_witness :
  no_terminator "9 UDP/TLS/RTP/SAVPF" = true
  /\ solid_end "9 UDP/TLS/RTP/SAVPF" = true
  /\ payload_tail (" 96 97 98" ++ String CR "") = true
  /\ replace_video video [96%N; 97%N]
       (media_prefix video ++ "9 UDP/TLS/RTP/SAVPF"
        ++ " 96 97 98" ++ String CR "")
     = "m=video 9 UDP/TLS/RTP/SAVPF96 97".
Proof.
  split; [reflexivity|]. split; [reflexivity|]. split; [reflexivity|].
  rewrite (replace_video_header video [96%N; 97%N] "9 UDP/TLS/RTP/SAVPF"
             (" 96 97 98" ++ String CR "") eq_refl eq_refl eq_refl).
  reflexivity.
Defined.

(** ** Retransmission lines *)

Lemma search_none_cons {A : Type} (f : string -> option A) (c : ascii)
  (r : string) :
  f (String c r) = None -> search f r = None -> search f (String c r) = None.
Proof. intros H1 H2. simpl. now rewrite H1, H2. Qed.

Lemma search_none_digits {A : Type} (f : string -> option A)
  (d t : string) :
  (forall s, head_digit s = true -> f s = None) ->
  forallb is_digit (list_ascii_of_string d) = true ->
  search f t = None -> search f (d ++ t) = None.
Proof.
  intros Hf Hd Ht. induction d as [|c d IH]; [exact Ht|].
  simpl in Hd. apply andb_true_iff in Hd as [Hc Hd].
  apply search_none_cons; [|now apply IH].
  apply Hf. exact Hc.
Qed.

Lemma codecRegex_at_digit_head (codec s : string) :
  head_digit s = true -> codecRegex_at codec s = None.
Proof.
  destruct s as [|c r]; [discriminate|]. simpl. intros Hc.
  unfold codecRegex_at, strip, startsWith. cbn [prefix].
  destruct (ascii_dec "a" c) as [<-|]; [discriminate | reflexivity].
Qed.

(** A line [a=fmtp:<digits> apt=<digits>], with or without a carriage
    return, does not match the codec pattern. *)
Lemma fmtp_line_no_codec (codec d1 d2 t : string) :
  all_digits d1 = true -> all_digits d2 = true ->
  t = "" \/ t = String CR "" ->
  codecRegex_match codec ("a=fmtp:" ++ d1 ++ " apt=" ++ d2 ++ t) = None.
Proof.
  intros H1 H2 Ht.
  apply all_digits_split in H1 as [_ H1].
  apply all_digits_split in H2 as [_ H2].
  unfold codecRegex_match.
  assert (E : search (codecRegex_at codec)
                ("a=fmtp:" ++ d1 ++ " apt=" ++ d2 ++ t) = None);
    [|now rewrite E].
  cbn [append].
  repeat (apply search_none_cons; [reflexivity|]).
  apply search_none_digits;
    [intros s; apply codecRegex_at_digit_head | exact H1 |].
  cbn [append].
  repeat (apply search_none_cons; [reflexivity|]).
  apply search_none_digits;
    [intros s; apply codecRegex_at_digit_head | exact H2 |].
  destruct Ht as [-> | ->]; reflexivity.
Qed.

Lemma rtxRegex_match_exact (d1 d2 : string) :
  all_digits d1 = true -> all_digits d2 = true ->
  rtxRegex_match ("a=fmtp:" ++ d1 ++ " apt=" ++ d2 ++ String CR "")
  = Some (to_number d1, to_number d2).
Proof.
  intros H1 H2.
  apply all_digits_split in H1 as [N1 H1].
  apply all_digits_split in H2 as [N2 H2].
  unfold rtxRegex_match.
  rewrite (search_here _ _ (to_number d1, to_number d2)); [reflexivity|].
  unfold rtxRegex_at. rewrite strip_append.
  rewrite digits_of_append by (exact H1 || reflexivity).
  rewrite N1, strip_append.
  rewrite digits_of_append by (exact H2 || reflexivity).
  rewrite N2, String.eqb_refl. reflexivity.
Qed.

Lemma digits_end_no_cr (a d : string) :
  all_digits d = true -> ends_with_cr (a ++ d) = false.
Proof.
  intros H. apply all_digits_split in H as [Hne Hd].
  destruct d as [|c d]; [discriminate|].
  unfold ends_with_cr. rewrite last_char_prepend by discriminate.
  destruct (last_char (String c d)) as [z|] eqn:E; [|reflexivity].
  rewrite <- (append_nil_r (String c d)) in Hd.
  pose proof (forallb_last_char _ _ _ _ Hd E) as Hz.
  destruct (Ascii.eqb_spec z CR) as [->|]; [discriminate | reflexivity].
Qed.

Lemma rtxRegex_match_no_cr (d1 d2 : string) :
  all_digits d2 = true ->
  rtxRegex_match ("a=fmtp:" ++ d1 ++ " apt=" ++ d2) = None.
Proof.
  intros H2.
  destruct (rtxRegex_match ("a=fmtp:" ++ d1 ++ " apt=" ++ d2)) as [r|] eqn:E;
    [|reflexivity].
  apply rtxRegex_match_cr in E.
  replace ("a=fmtp:" ++ d1 ++ " apt=" ++ d2)
    with (("a=fmtp:" ++ d1 ++ " apt=") ++ d2) in E
    by (now rewrite !append_assoc).
  rewrite (digits_end_no_cr _ _ H2) in E. discriminate.
Qed.

(** C5, as stated, fails: in [lf_only_sdp], whose lines end with a line
    feed alone, the line [a=fmtp:97 apt=96] is scanned when its base 96 is
    already in the list, and 97 is not added, neither then nor later. *)
Lemma rtx_line_without_cr_not_added :
  nth_error (split_lines lf_only_sdp) 3 = Some "a=fmtp:97 apt=96"
  /\ collect_allowed video H264 (firstn 3 (split_lines lf_only_sdp))
     = [96%N]
  /\ collect_allowed video H264 (firstn 4 (split_lines lf_only_sdp))
     = [96%N]
  /\ includes 97%N (collect_allowed video H264 (split_lines lf_only_sdp))
     = false.
Proof. repeat split; vm_compute; reflexivity. Qed.

(** C5, amended.  A retransmission line that ends with a carriage return,
    [a=fmtp:<pt> apt=<apt>] and CR, gets [pt] appended to the list exactly
    when [apt] is in the list collected from the lines before it.  When
    [apt] is not there the scan goes on as if the line were absent, and
    [pt] is in the final list only if another line supplies it: a base
    found later does not bring the line back.  The same line without the
    carriage return adds nothing, whatever the list holds. *)
Theorem rtx_line_added_iff_base_allowed (k : Kind) (codec : string)
  (pre post : list string) (d1 d2 : string) :
  all_digits d1 = true -> all_digits d2 = true ->
  let l := "a=fmtp:" ++ d1 ++ " apt=" ++ d2 ++ String CR "" in
  let l_lf := "a=fmtp:" ++ d1 ++ " apt=" ++ d2 in
  let old := collect_allowed k codec pre in
  let pt := to_number d1 in
  let apt := to_number d2 in
  (collect_allowed k codec (pre ++ [l]) = (old ++ [pt])%list <-> In apt old)
  /\ (~ In apt old -> collect_allowed k codec (pre ++ [l]) = old)
  /\ (~ In apt old ->
      forall b, collect_allowed k codec (pre ++ l :: post)
                = snd (collect_from k codec (b, old) post))
  /\ (~ In apt old -> ~ In pt old ->
      (forall l', In l' post ->
                  codecRegex_match codec l' <> Some pt /\
                  forall a, rtxRegex_match l' <> Some (pt, a)) ->
      ~ In pt (collect_allowed k codec (pre ++ l :: post)))
  /\ (forall b, collect_allowed k codec (pre ++ l_lf :: post)
                = snd (collect_from k codec (b, old) post)).
Proof.
  intros H1 H2. cbv zeta.
  pose proof (collect_at_rtx_match k codec pre post
                ("a=fmtp:" ++ d1 ++ " apt=" ++ d2 ++ String CR "")
                (to_number d1) (to_number d2)
                (rtxRegex_match_exact d1 d2 H1 H2)) as H.
  unfold codec_part in H.
  rewrite (fmtp_line_no_codec codec d1 d2 (String CR "") H1 H2
             (or_intror eq_refl)) in H.
  rewrite app_nil_r in H. cbv zeta in H.
  destruct H as (Ha & Hb & Hc & Hd).
  split; [exact Ha|]. split; [exact Hb|]. split; [exact Hc|].
  split; [exact Hd|].
  intros b. rewrite collect_allowed_app, collect_from_snd.
  cbn [fold_left]. f_equal.
  unfold collect_line, codec_part, rtx_part.
  pose proof (fmtp_line_no_codec codec d1 d2 "" H1 H2 (or_introl eq_refl))
    as Hno.
  rewrite append_nil_r in Hno.
  rewrite Hno, (rtxRegex_match_no_cr d1 d2 H2).
  now rewrite !app_nil_r.
Qed.

(** C5 amended, a run: after the [a=rtpmap] line of 96 the retransmission
    line of 97, ended by a carriage return, adds 97. *)
Lemma rtx_line_added_iff_base_allowed_witness :
  all_digits "97" = true /\ all_digits "96" = true
  /\ collect_allowed video H264
       (["m=video 9 UDP/TLS/RTP/SAVPF 96 97" ++ String CR "";
         "a=rtpmap:96 H264/90000" ++ String CR ""]
        ++ ["a=fmtp:" ++ "97" ++ " apt=" ++ "96" ++ String CR ""])
     = [96%N; 97%N].
Proof.
  split; [reflexivity|]. split; [reflexivity|].
  apply (proj2 (proj1 (rtx_line_added_iff_base_allowed video H264
                         ["m=video 9 UDP/TLS/RTP/SAVPF 96 97"
                            ++ String CR "";
                          "a=rtpmap:96 H264/90000" ++ String CR ""]
                         [] "97" "96" eq_refl eq_refl))).
  vm_compute. left. reflexivity.
Defined.
